(** * Application Launcher: the entry registry, its store and the launch dispatch

    A shallow embedding of [Launcher_main.py].  The Qt widgets are reduced to
    the data the handlers read from them and to the message boxes they raise;
    the file system is a finite map from path to file content; the standard
    library calls the program makes ([json], [uuid], [os.path], [shutil]) are
    modelled next to the code that uses them. *)

From stdpp Require Import gmap strings list fin_maps pretty.
From Stdlib Require Import ZArith Ascii.

Set Warnings "-register-all,-clear-no-such-hyp".
Local Open Scope Z_scope.
Local Open Scope nat_scope.

(* ===================================================================== *)
(** * Library models *)
(* ===================================================================== *)

(** ** json

    A file is modelled by what [json.load] makes of it: the tree it parses
    to, or raw bytes on which parsing raises.  [json.dump] writes a tree and
    [json.load] reads the same tree back; the layout options ([indent],
    [ensure_ascii]) do not change the tree.  Numbers are integers: the
    program never writes a number. *)
Inductive json : Type :=
  | JNull
  | JBool (b : bool)
  | JNum (n : Z)
  | JStr (s : string)
  | JArr (items : list json)
  | JObj (members : list (string * json)).

Inductive content : Type :=
  | Json (v : json)
  | Raw (bytes : string).

(** [d.get(key)] on the dict that [json.load] builds from an object: of two
    members with the same key the later one is kept. *)
Fixpoint dict_get (key : string) (members : list (string * json)) : option json :=
  match members with
  | [] => None
  | (k, v) :: rest =>
      match dict_get key rest with
      | Some v' => Some v'
      | None => if decide (k = key) then Some v else None
      end
  end.

(** ** uuid

    [uuid.uuid4()] draws 16 random bytes and stamps the variant and version
    bits on them; [str] prints the 128 bits as 32 hexadecimal digits in
    groups of 8-4-4-4-12.  The random bytes come from [urandom], a stream of
    draws of which [calls] have been consumed. *)
Record entropy : Type := { urandom : nat → Z; calls : nat }.

Definition uuid4_int (r : Z) : Z :=
  let i := Z.land r (Z.ones 128) in
  let i := Z.land i (Z.lnot (Z.shiftl 0xc000 48)) in
  let i := Z.lor i (Z.shiftl 0x8000 48) in
  let i := Z.land i (Z.lnot (Z.shiftl 0xf000 64)) in
  Z.lor i (Z.shiftl 4 76).

Definition hex_digit (d : Z) : ascii :=
  if (d <? 10)%Z then ascii_of_nat (48 + Z.to_nat d)
  else ascii_of_nat (87 + Z.to_nat d).

(** The [n] lowest hexadecimal digits of [i], most significant first. *)
Fixpoint hex (n : nat) (i : Z) : string :=
  match n with
  | O => ""
  | S m => String (hex_digit (Z.land (Z.shiftr i (4 * Z.of_nat m)) 15)) (hex m i)
  end.

Definition str_uuid (i : Z) : string :=
  hex 8 (Z.shiftr i 96) +:+ "-" +:+ hex 4 (Z.shiftr i 80) +:+ "-" +:+
  hex 4 (Z.shiftr i 64) +:+ "-" +:+ hex 4 (Z.shiftr i 48) +:+ "-" +:+ hex 12 i.

(** [str(uuid.uuid4())] *)
Definition uuid4 (g : entropy) : string * entropy :=
  (str_uuid (uuid4_int (urandom g (calls g))),
   {| urandom := urandom g; calls := S (calls g) |}).

(** ** str

    A string holds the UTF-8 bytes of the Python [str].  [str.strip()]
    removes, at both ends, the characters for which [str.isspace] holds, the
    ones beyond ASCII too; [str.lower()] is used on file extensions that are
    compared with ASCII ones, and maps the capital ASCII letters. *)

(** The UTF-8 bytes of a code point below 0x10000. *)
Definition utf8 (c : N) : string :=
  if (c <? 128)%N then String (ascii_of_N c) EmptyString
  else if (c <? 2048)%N then
    String (ascii_of_N (192 + c / 64)) (String (ascii_of_N (128 + c mod 64)) EmptyString)
  else
    String (ascii_of_N (224 + c / 4096))
      (String (ascii_of_N (128 + (c / 64) mod 64))
         (String (ascii_of_N (128 + c mod 64)) EmptyString)).

(** The code points of [str.isspace]: U+0009 to U+000D, U+001C to U+0020,
    U+0085, U+00A0, U+1680, U+2000 to U+200A, U+2028, U+2029, U+202F,
    U+205F and U+3000. *)
Definition white_space : list N :=
  [9; 10; 11; 12; 13; 28; 29; 30; 31; 32; 133; 160; 5760;
   8192; 8193; 8194; 8195; 8196; 8197; 8198; 8199; 8200; 8201; 8202;
   8232; 8233; 8239; 8287; 12288]%N.

(** The characters of a string: the bytes grouped by the length that the
    leading byte of each character announces. *)
Fixpoint chars (s : string) : list string :=
  match s with
  | EmptyString => []
  | String a r1 =>
      if nat_of_ascii a <? 192 then String a EmptyString :: chars r1
      else
        match r1 with
        | EmptyString => [s]
        | String b r2 =>
            if nat_of_ascii a <? 224 then String a (String b EmptyString) :: chars r2
            else
              match r2 with
              | EmptyString => [s]
              | String c r3 =>
                  if nat_of_ascii a <? 240 then
                    String a (String b (String c EmptyString)) :: chars r3
                  else
                    match r3 with
                    | EmptyString => [s]
                    | String d r4 =>
                        String a (String b (String c (String d EmptyString))) :: chars r4
                    end
              end
        end
  end.

(** [ch.isspace()] on one character. *)
Definition is_space (ch : string) : bool := bool_decide (ch ∈ utf8 <$> white_space).

Fixpoint lstrip_chars (l : list string) : list string :=
  match l with
  | ch :: rest => if is_space ch then lstrip_chars rest else l
  | [] => []
  end.

Definition join_chars (l : list string) : string := foldr String.append EmptyString l.

Definition lstrip (s : string) : string := join_chars (lstrip_chars (chars s)).

Definition rstrip (s : string) : string :=
  join_chars (rev (lstrip_chars (rev (chars s)))).

Definition strip (s : string) : string :=
  join_chars (rev (lstrip_chars (rev (lstrip_chars (chars s))))).

Arguments strip : simpl never.

Definition lower_char (c : ascii) : ascii :=
  let n := nat_of_ascii c in
  if (65 <=? n) && (n <=? 90) then ascii_of_nat (n + 32) else c.

Fixpoint lower (s : string) : string :=
  match s with
  | String c rest => String (lower_char c) (lower rest)
  | EmptyString => EmptyString
  end.

(** ** os.path

    The path functions differ between platforms ([posixpath], [ntpath]); the
    program is read against any implementation of them. *)
Class OsPath : Type := {
  join : string → string → string;
  basename : string → string;
  dirname : string → string;
  splitext : string → string * string;
  abspath : string → string;
}.

(** ** The file system: regular files by exact path. *)
Abbreviation fs := (gmap string content).

Definition path_exists (files : fs) (p : string) : bool :=
  bool_decide (is_Some (files !! p)).

Definition os_remove (p : string) (files : fs) : fs := delete p files.

(** [os.rename(a, b)], called only when [a] exists and [b] does not. *)
Definition os_rename (a b : string) (files : fs) : fs :=
  match files !! a with
  | Some c => <[b := c]> (delete a files)
  | None => files
  end.

(** [shutil.copy2(src, dst)]: raises ([None]) when [src] is missing or when
    [src] and [dst] are the same file. *)
Definition shutil_copy2 (src dst : string) (files : fs) : option fs :=
  if decide (src = dst) then None
  else c ← files !! src; Some (<[dst := c]> files).

(* ===================================================================== *)
(** * Storage and model *)
(* ===================================================================== *)

Record LauncherEntry : Type := {
  id : string;
  name : string;
  path : string;
  description : string;
  entry_type : string;  (* "app" or "separator" *)
}.

#[global] Instance LauncherEntry_eq_dec : EqDecision LauncherEntry.
Proof. solve_decision. Defined.

(** [dataclasses.asdict] *)
Definition asdict (e : LauncherEntry) : json :=
  JObj [("id", JStr (id e)); ("name", JStr (name e)); ("path", JStr (path e));
        ("description", JStr (description e)); ("entry_type", JStr (entry_type e))].

(** What [load_entries] returns: a list of entries, or, outside what the
    dataclass declares, a list in which some field is not a [str].  The code
    keeps such a value and goes on; the model stops at [NotStr], and every
    statement about a load is about a load that is [Loaded]. *)
Inductive load_result : Type :=
  | Loaded (result : list LauncherEntry)
  | NotStr.

Section Storage.
Context `{OsPath} (home : string).

(** [os.path.expanduser("~")] is [home].  [os.makedirs(path, exist_ok=True)]
    is taken to succeed: the directory is there or can be made.  Directories
    are not among the files of the model, and what follows says nothing of a
    run in which the call raises. *)
Definition _app_data_dir : string := join home ".launcher".

Definition _data_file : string := join _app_data_dir "launcher_data.json".

(** [f"{fp}.bak{i}"] *)
Definition backup_name (i : nat) : string :=
  _data_file +:+ ".bak" +:+ pretty i.

(** [it.get(key, default)] read into a field declared [str].  A member that
    holds another kind of value would give an object that is not a
    [LauncherEntry] as declared: [None], and the load is [NotStr]. *)
Definition get_str (key default : string) (it : list (string * json)) : option string :=
  match dict_get key it with
  | None => Some default
  | Some (JStr s) => Some s
  | Some _ => None
  end.

(** [LauncherEntry(id=it.get("id", fresh), name=it.get("name", ""), ...)] *)
Definition entry_of_dict (fresh : string) (it : list (string * json)) : option LauncherEntry :=
  i ← get_str "id" fresh it;
  n ← get_str "name" "" it;
  p ← get_str "path" "" it;
  d ← get_str "description" "" it;
  t ← get_str "entry_type" "app" it;
  Some {| id := i; name := n; path := p; description := d; entry_type := t |}.

(** The loop of [load_entries].  [it.get] on anything but a dict raises
    [AttributeError] before the arguments are evaluated, and the element is
    skipped; on a dict the default id is drawn whether the record has an id
    or not. *)
Fixpoint load_items (items : list json) (result : list LauncherEntry) (g : entropy)
    : load_result * entropy :=
  match items with
  | [] => (Loaded result, g)
  | JObj it :: rest =>
      let '(fresh, g') := uuid4 g in
      match entry_of_dict fresh it with
      | Some e => load_items rest (result ++ [e]) g'
      | None => (NotStr, g')
      end
  | _ :: rest => load_items rest result g
  end.

(** A missing file, a file that does not parse, a document that is not an
    object and an ["entries"] member that is not an array all give the
    empty list: the first by the test, the others through the outer
    [except] (or, for a string or an object under ["entries"], through the
    inner one at every element). *)
Definition load_entries (files : fs) (g : entropy) : load_result * entropy :=
  match files !! _data_file with
  | None => (Loaded [], g)
  | Some (Raw _) => (Loaded [], g)
  | Some (Json (JObj data)) =>
      match dict_get "entries" data with
      | None => (Loaded [], g)
      | Some (JArr items) => load_items items [] g
      | Some _ => (Loaded [], g)
      end
  | Some (Json _) => (Loaded [], g)
  end.

Definition get_backup_files (files : fs) : list string :=
  filter (λ backup_path, is_Some (files !! backup_path)) (backup_name <$> seq 1 10).

Definition restore_from_backup (backup_path : string) (files : fs) : bool * fs :=
  match shutil_copy2 backup_path _data_file files with
  | Some files' => (true, files')
  | None => (false, files)
  end.

(** One turn of the rotation loop. *)
Definition rotate (files : fs) (i : nat) : fs :=
  let old_backup := backup_name i in
  let new_backup := backup_name (i + 1) in
  if path_exists files old_backup then
    let files := if path_exists files new_backup then os_remove new_backup files else files in
    os_rename old_backup new_backup files
  else files.

(** [None] is an exception leaving the function. *)
Definition _backup_data_file (files : fs) : option fs :=
  let fp := _data_file in
  if negb (path_exists files fp) then Some files
  else
    (* range(9, 0, -1) *)
    let files := foldl rotate files (rev (seq 1 9)) in
    let backup_path := backup_name 1 in
    let files := if path_exists files backup_path then os_remove backup_path files else files in
    shutil_copy2 fp backup_path files.

Definition document (entries : list LauncherEntry) : json :=
  JObj [("entries", JArr (asdict <$> entries))].

Definition save_entries (entries : list LauncherEntry) (files : fs) : option fs :=
  files ← _backup_data_file files;
  Some (<[_data_file := Json (document entries)]> files).

End Storage.

(* ===================================================================== *)
(** * UI widgets *)
(* ===================================================================== *)

(** The message boxes the handlers raise. *)
Inductive message_box : Type :=
  | warning_name_required       (* get_entry: the name is required *)
  | warning_path_required       (* get_entry: an application needs a path *)
  | question_path_not_found     (* get_entry: the path does not exist, save anyway? *)
  | information_restored        (* do_restore: restored, restart the application *)
  | warning_restore_failed      (* do_restore *)
  | information_no_backup       (* show_restore_dialog: no backup file *)
  | warning_file_not_found.     (* _run_entry: file not found, fix it by editing *)

(** What the input widgets of the dialog hold. *)
Record widgets : Type := {
  type_combo : nat;   (* currentIndex: 0 application, 1 category *)
  name_edit : string;
  path_edit : string;
  desc_edit : string;
}.

Record EntryDialog : Type := {
  _is_edit : bool;
  _entry : option LauncherEntry;
  ui : widgets;
}.

(** The person at the dialog: what they leave in the widgets, whether they
    close it with the save button, and what they answer to a question box. *)
Record user : Type := {
  fill : widgets → widgets;
  accepts : bool;
  answers_yes : bool;
}.

(** [EntryDialog.__init__] *)
Definition EntryDialog_init (entry : option LauncherEntry) : EntryDialog :=
  {| _is_edit := bool_decide (is_Some entry);
     _entry := entry;
     ui := {| type_combo :=
                match entry with
                | Some e => if decide (entry_type e = "separator") then 1 else 0
                | None => 0
                end;
              name_edit := from_option name "" entry;
              path_edit := from_option path "" entry;
              desc_edit := from_option description "" entry |} |}.

(** [dlg.exec()] *)
Definition exec (u : user) (dlg : EntryDialog) : bool * EntryDialog :=
  (accepts u, {| _is_edit := _is_edit dlg; _entry := _entry dlg; ui := fill u (ui dlg) |}).

(** [not s] on a string. *)
Definition falsy (s : string) : bool := bool_decide (s = "").

(** The result, the boxes raised, and the random draws left. *)
Definition get_entry (self : EntryDialog) (u : user) (files : fs) (g : entropy)
    : option LauncherEntry * list message_box * entropy :=
  let name := strip (name_edit (ui self)) in
  let desc := strip (desc_edit (ui self)) in
  let is_category := bool_decide (type_combo (ui self) = 1) in
  if falsy name then (None, [warning_name_required], g)
  else
    let finish (entry_type path : string) (boxes : list message_box) :=
      match _is_edit self, _entry self with
      | true, Some e =>
          (Some {| id := id e; name := name; path := path; description := desc;
                   entry_type := entry_type |}, boxes, g)
      | _, _ =>
          let '(fresh, g') := uuid4 g in
          (Some {| id := fresh; name := name; path := path; description := desc;
                   entry_type := entry_type |}, boxes, g')
      end in
    if is_category then finish "separator" "" []
    else
      let path := strip (path_edit (ui self)) in
      if falsy path then (None, [warning_path_required], g)
      else if negb (path_exists files path) then
        if negb (answers_yes u) then (None, [question_path_not_found], g)
        else finish "app" path [question_path_not_found]
      else finish "app" path [].

(* ===================================================================== *)
(** * Main window *)
(* ===================================================================== *)

(** [self.entries], and the id each item of [self.list] carries. *)
Record MainWindow : Type := {
  entries : list LauncherEntry;
  list_items : list string;
}.

(** The [return] by which [_save_current_order] leaves. *)
Inductive reorder_exit : Type :=
  | missing_refreshed   (* ids missing: the list is rebuilt from the entries *)
  | duplicate_ignored   (* an id reported twice *)
  | count_differs       (* fewer entries found than held *)
  | order_saved.

(** What [_run_entry] does. *)
Inductive launch : Type :=
  | no_launch
  | shown (box : message_box)
  | Popen_shell (cmd : string)
  | startfile (path : string)
  | Popen_args (args : list string) (cwd : option string).

(** The double quote. *)
Definition dq : string := String (ascii_of_nat 34) EmptyString.

(** How an f-string prints [cwd]. *)
Definition format_cwd (cwd : option string) : string := default "None" cwd.

Section Window.
Context `{OsPath} (home : string).

(** [LauncherEntry.from_file] *)
Definition from_file (filepath : string) (g : entropy) : LauncherEntry * entropy :=
  let base := (splitext (basename filepath)).1 in
  let '(fresh, g') := uuid4 g in
  ({| id := fresh; name := base; path := abspath filepath; description := "";
      entry_type := "app" |}, g').

Definition _refresh_list (self : MainWindow) : MainWindow :=
  {| entries := entries self; list_items := id <$> entries self |}.

(** The dialog [add_entry_dialog] opens: pre-filled from the dropped file
    when there is one. *)
Definition open_dialog (from_path : option string) (g : entropy) : EntryDialog * entropy :=
  match from_path with
  | Some p => if falsy p then (EntryDialog_init None, g)
              else let '(tmp, g') := from_file p g in (EntryDialog_init (Some tmp), g')
  | None => (EntryDialog_init None, g)
  end.

(** [None] is an exception leaving the handler. *)
Definition add_entry_dialog (self : MainWindow) (from_path : option string) (u : user)
    (files : fs) (g : entropy)
    : option (MainWindow * fs * entropy * list message_box) :=
  let '(dlg, g) := open_dialog from_path g in
  let '(accepted, dlg) := exec u dlg in
  if accepted then
    match get_entry dlg u files g with
    | (None, boxes, g) => Some (self, files, g, boxes)
    | (Some entry, boxes, g) =>
        let entries := entries self ++ [entry] in
        files ← save_entries home entries files;
        Some (_refresh_list {| entries := entries; list_items := list_items self |},
              files, g, boxes)
    end
  else Some (self, files, g, []).

(** [{e.id: e for e in self.entries}]: a later entry replaces an earlier
    one with the same id. *)
Definition id_to_entry (entries : list LauncherEntry) : gmap string LauncherEntry :=
  foldl (λ m e, <[id e := e]> m) ∅ entries.

(** The ids read from the items of the list, in order, the empty ones
    left out ([if eid:]). *)
Definition read_ordered_ids (self : MainWindow) : list string :=
  filter (λ eid, eid ≠ "") (list_items self).

Definition _save_current_order (self : MainWindow) (files : fs)
    : option (reorder_exit * MainWindow * fs) :=
  let ordered_ids := read_ordered_ids self in
  let original_ids : gset string := list_to_set (id <$> entries self) in
  let ordered_ids_set : gset string := list_to_set ordered_ids in
  let missing_ids := original_ids ∖ ordered_ids_set in
  if decide (missing_ids ≠ ∅) then Some (missing_refreshed, _refresh_list self, files)
  else if decide (length ordered_ids ≠ size ordered_ids_set) then
    Some (duplicate_ignored, self, files)
  else
    let new_entries := omap (λ eid, id_to_entry (entries self) !! eid) ordered_ids in
    if decide (length new_entries = length (entries self)) then
      files ← save_entries home new_entries files;
      Some (order_saved, {| entries := new_entries; list_items := list_items self |}, files)
    else Some (count_differs, self, files).

(** [do_restore] inside [show_restore_dialog]: [backups] is the list read
    when the dialog opened, [current_row] is -1 when no row is selected and
    otherwise a row of the list shown, so within [backups]. *)
Definition do_restore (self : MainWindow) (backups : list string) (current_row : Z)
    (files : fs) : MainWindow * fs * list message_box :=
  if (0 <=? current_row)%Z then
    match backups !! Z.to_nat current_row with
    | Some backup_path =>
        match restore_from_backup home backup_path files with
        | (true, files) => (self, files, [information_restored])
        | (false, files) => (self, files, [warning_restore_failed])
        end
    | None => (self, files, [])
    end
  else (self, files, []).

(** [show_restore_dialog]: [pressed] is the row selected when the restore
    button is pressed, [None] when the dialog is cancelled. *)
Definition show_restore_dialog (self : MainWindow) (pressed : option Z) (files : fs)
    : MainWindow * fs * list message_box :=
  let backups := get_backup_files home files in
  if decide (backups = []) then (self, files, [information_no_backup])
  else match pressed with
       | Some current_row => do_restore self backups current_row files
       | None => (self, files, [])
       end.

(** [win] is [sys.platform.startswith("win")].  What the launched process
    does, and the box raised when starting it fails, belong to the system
    and are left out. *)
Definition _run_entry (win : bool) (files : fs) (entry : LauncherEntry) : launch :=
  if decide (entry_type entry = "separator") then no_launch
  else
    let path := path entry in
    if negb (path_exists files path) then shown warning_file_not_found
    else
      let ext := lower (splitext path).2 in
      let cwd := if falsy (dirname path) then None else Some (dirname path) in
      if bool_decide (ext ∈ [".py"; ".pyw"]) then
        Popen_shell ("start " +:+ dq +:+ "Python: " +:+ name entry +:+ dq +:+ " cmd /k " +:+ dq
                     +:+ "cd /d " +:+ dq +:+ format_cwd cwd +:+ dq
                     +:+ " && python " +:+ dq +:+ path +:+ dq +:+ " && pause" +:+ dq)
      else if bool_decide (ext ∈ [".exe"; ".bat"; ".cmd"]) then
        match cwd with
        | Some d =>
            Popen_shell ("start " +:+ dq +:+ name entry +:+ dq +:+ " cmd /k " +:+ dq
                         +:+ "cd /d " +:+ dq +:+ d +:+ dq
                         +:+ " && " +:+ dq +:+ path +:+ dq +:+ " && pause" +:+ dq)
        | None =>
            Popen_shell ("start " +:+ dq +:+ name entry +:+ dq +:+ " cmd /k " +:+ dq
                         +:+ dq +:+ path +:+ dq +:+ " && pause" +:+ dq)
        end
      else if win then startfile path
      else Popen_args [path] cwd.

End Window.

(* ===================================================================== *)
(** * Main window: the other handlers *)
(* ===================================================================== *)

Section Handlers.
Context `{OsPath} (home : string).

(** [MainWindow.__init__]: the entries are loaded and the list is filled
    from them.  [None] outside what the dataclass declares. *)
Definition MainWindow_init (files : fs) (g : entropy) : option MainWindow * entropy :=
  match load_entries home files g with
  | (Loaded loaded, g') =>
      (Some (_refresh_list {| entries := loaded; list_items := [] |}), g')
  | (NotStr, g') => (None, g')
  end.

(** [_find_entry_by_id]: the first entry with the id.  It is returned with
    its place in [self.entries]: the caller gets the object the list holds
    there, and a change of its fields shows in the list. *)
Fixpoint _find_entry_by_id (entries : list LauncherEntry) (entry_id : string)
    : option (nat * LauncherEntry) :=
  match entries with
  | [] => None
  | e :: rest =>
      if decide (id e = entry_id) then Some (0, e)
      else '(i, found) ← _find_entry_by_id rest entry_id; Some (S i, found)
  end.

(** [_selected_entry]: [current_item] is the id the current item of the list
    carries, [None] when the list has no current item. *)
Definition _selected_entry (self : MainWindow) (current_item : option string)
    : option (nat * LauncherEntry) :=
  entry_id ← current_item; _find_entry_by_id (entries self) entry_id.

(** [edit_selected].  [get_entry] writes the fields into the entry it was
    given, which is the object in the list: the list holds the changed entry
    at the same place.  [None] is an exception leaving the handler. *)
Definition edit_selected (self : MainWindow) (current_item : option string) (u : user)
    (files : fs) (g : entropy)
    : option (MainWindow * fs * entropy * list message_box) :=
  match _selected_entry self current_item with
  | None => Some (self, files, g, [])
  | Some (i, entry) =>
      let '(accepted, dlg) := exec u (EntryDialog_init (Some entry)) in
      if accepted then
        match get_entry dlg u files g with
        | (None, boxes, g) => Some (self, files, g, boxes)
        | (Some entry2, boxes, g) =>
            let entries := <[i := entry2]> (entries self) in
            files ← save_entries home entries files;
            Some (_refresh_list {| entries := entries; list_items := list_items self |},
                  files, g, boxes)
        end
      else Some (self, files, g, [])
  end.

(** [_delete_entry]: the question box is answered by [answers_yes]. *)
Definition _delete_entry (self : MainWindow) (entry : LauncherEntry) (u : user) (files : fs)
    : option (MainWindow * fs) :=
  if negb (answers_yes u) then Some (self, files)
  else
    let entries := filter (λ e, id e ≠ id entry) (entries self) in
    files ← save_entries home entries files;
    Some (_refresh_list {| entries := entries; list_items := list_items self |}, files).

(** The loop of [_handle_files_dropped] from the path numbered [n] on;
    [respond n] is the person's conduct at the dialog opened for path [n]. *)
Fixpoint files_dropped_from (n : nat) (paths : list string) (respond : nat → user)
    (self : MainWindow) (files : fs) (g : entropy) (boxes : list message_box)
    : option (MainWindow * fs * entropy * list message_box) :=
  match paths with
  | [] => Some (self, files, g, boxes)
  | p :: rest =>
      if falsy p then files_dropped_from (S n) rest respond self files g boxes
      else
        '(self, files, g, raised) ← add_entry_dialog home self (Some p) (respond n) files g;
        files_dropped_from (S n) rest respond self files g (boxes ++ raised)
  end.

Definition _handle_files_dropped (self : MainWindow) (paths : list string)
    (respond : nat → user) (files : fs) (g : entropy)
    : option (MainWindow * fs * entropy * list message_box) :=
  files_dropped_from 0 paths respond self files g [].

End Handlers.

(* ===================================================================== *)
(** * Runs and views used by the statements *)
(* ===================================================================== *)

(** The dicts among the elements of an array, in order. *)
Definition objects (items : list json) : list (list (string * json)) :=
  omap (λ item, match item with JObj it => Some it | _ => None end) items.

(** The identifier of the draw [j] calls from now. *)
Definition draw (g : entropy) (j : nat) : string :=
  (uuid4 {| urandom := urandom g; calls := calls g + j |}).1.

(** The boxes by which [get_entry] refuses its input. *)
Definition validation_error (boxes : list message_box) : Prop :=
  boxes = [warning_name_required] ∨ boxes = [warning_path_required].

Section Runs.
Context `{OsPath} (home : string).

(** Successive saves, each of the entries held at the time. *)
Definition save_all (saves : list (list LauncherEntry)) (files : fs) : option fs :=
  foldl (λ acc entries, acc ≫= save_entries home entries) (Some files) saves.

(** The states of the document: the one found, then one per save. *)
Definition history (found : content) (saves : list (list LauncherEntry)) : list content :=
  found :: ((λ entries, Json (document entries)) <$> saves).
End Runs.

(* ===================================================================== *)
(** * A platform for the examples: [posixpath] on normalised paths *)
(* ===================================================================== *)

(** [s.rpartition(c)] without the separator; [None] when [c] does not occur. *)
Fixpoint rpartition (c : ascii) (s : string) : option (string * string) :=
  match s with
  | EmptyString => None
  | String a rest =>
      match rpartition c rest with
      | Some (h, t) => Some (String a h, t)
      | None => if decide (a = c) then Some (EmptyString, rest) else None
      end
  end.

Fixpoint all_char (c : ascii) (s : string) : bool :=
  match s with
  | EmptyString => true
  | String a rest => bool_decide (a = c) && all_char c rest
  end.

Fixpoint rstrip_char (c : ascii) (s : string) : string :=
  match s with
  | EmptyString => EmptyString
  | String a rest =>
      match rstrip_char c rest with
      | EmptyString => if decide (a = c) then EmptyString else String a EmptyString
      | kept => String a kept
      end
  end.

Definition posix_join (a b : string) : string :=
  match b with
  | String "/" _ => b
  | _ => if falsy a then b
         else match rpartition "/" a with
              | Some (_, EmptyString) => a +:+ b
              | _ => a +:+ "/" +:+ b
              end
  end.

Definition posix_basename (p : string) : string :=
  match rpartition "/" p with
  | Some (_, t) => t
  | None => p
  end.

Definition posix_dirname (p : string) : string :=
  match rpartition "/" p with
  | Some (h, _) => if all_char "/" h then h +:+ "/" else rstrip_char "/" h
  | None => ""
  end.

Definition posix_splitext (p : string) : string * string :=
  match rpartition "." (posix_basename p) with
  | Some (r, e) =>
      if all_char "." r then (p, "")
      else match rpartition "." p with
           | Some (root, _) => (root, "." +:+ e)
           | None => (p, "")
           end
  | None => (p, "")
  end.

(** The working directory is the root. *)
#[export] Instance posix : OsPath := {
  join := posix_join;
  basename := posix_basename;
  dirname := posix_dirname;
  splitext := posix_splitext;
  abspath := posix_join "/";
}.

(* ===================================================================== *)
(** * Example data *)
(* ===================================================================== *)

Definition example_home : string := "/home/u".

Definition notes : LauncherEntry :=
  {| id := "id-notes"; name := "Notes"; path := "/opt/notes/notes.exe";
     description := "plain text"; entry_type := "app" |}.

Definition calc : LauncherEntry :=
  {| id := "id-calc"; name := "Calc"; path := "/opt/calc/calc.exe";
     description := ""; entry_type := "app" |}.

Definition tool : LauncherEntry :=
  {| id := "id-tool"; name := "Tool"; path := "tool.py";
     description := ""; entry_type := "app" |}.

Definition readme : LauncherEntry :=
  {| id := "id-readme"; name := "Readme"; path := "/home/u/readme.txt";
     description := ""; entry_type := "app" |}.

(** The document holds Notes then Calc; there is no backup. *)
Definition example_files : fs :=
  {[ _data_file example_home := Json (document [notes; calc]) ]}.

(** The document and one backup generation, of the time only Notes was held. *)
Definition files_with_backup : fs :=
  <[ backup_name example_home 1 := Json (document [notes]) ]> example_files.

(** The document and three backup generations. *)
Definition files_with_three_backups : fs :=
  <[ backup_name example_home 3 := Json (document []) ]>
    (<[ backup_name example_home 2 := Json (document [calc]) ]> files_with_backup).

Definition no_entropy : entropy := {| urandom := λ _, 0%Z; calls := 0 |}.

(** A record as [save_entries] writes it, and one without a name. *)
Definition record_calc : list (string * json) :=
  [("id", JStr "id-calc"); ("name", JStr "Calc"); ("path", JStr "/opt/calc/calc.exe");
   ("description", JStr ""); ("entry_type", JStr "app")].

Definition record_without_name : list (string * json) :=
  [("id", JStr "id-anon"); ("path", JStr "/opt/anon.exe")].

Definition files_record_without_name : fs :=
  {[ _data_file example_home :=
       Json (JObj [("entries", JArr [JObj record_calc; JObj record_without_name])]) ]}.

(** A record with an empty id, and one with no id. *)
Definition record_empty_id : list (string * json) :=
  [("id", JStr ""); ("name", JStr "Blank")].

Definition record_without_id : list (string * json) :=
  [("name", JStr "Fresh"); ("path", JStr "/opt/fresh.exe")].

Definition files_record_empty_id : fs :=
  {[ _data_file example_home :=
       Json (JObj [("entries", JArr [JObj record_empty_id; JObj record_without_id])]) ]}.

(** Twelve saves, of one to twelve copies of Notes. *)
Definition twelve_saves : list (list LauncherEntry) :=
  (λ n, replicate n notes) <$> seq 1 12.

(** Someone who types a name and a path that names no file, saves, and
    answers yes. *)
Definition eager_user : user :=
  {| fill := λ _, {| type_combo := 0; name_edit := "  Notes "; path_edit := " /opt/gone.exe";
                     desc_edit := "" |};
     accepts := true;
     answers_yes := true |}.

(** A second entry with the id of Notes, and an entry with the empty id. *)
Definition notes_twin : LauncherEntry :=
  {| id := "id-notes"; name := "Notes again"; path := "/opt/notes/notes2.exe";
     description := ""; entry_type := "app" |}.

Definition blank_id_entry : LauncherEntry :=
  {| id := ""; name := "Blank"; path := "/opt/blank.exe";
     description := ""; entry_type := "app" |}.

(** Someone who leaves the dialog as it shows, saves, and answers yes. *)
Definition patient_user : user :=
  {| fill := λ w, w; accepts := true; answers_yes := true |}.

(** Someone who renames the entry to Calculator, saves, and answers yes. *)
Definition renaming_user : user :=
  {| fill := λ w, {| type_combo := type_combo w; name_edit := "Calculator";
                     path_edit := path_edit w; desc_edit := desc_edit w |};
     accepts := true;
     answers_yes := true |}.

Definition notes_and_calc : MainWindow :=
  {| entries := [notes; calc]; list_items := ["id-notes"; "id-calc"] |}.

(** The entry that [eager_user] makes with the first identifier drawn from
    [no_entropy], and the window after it is added to Notes. *)
Definition gone : LauncherEntry :=
  {| id := "00000000-0000-4000-8000-000000000000"; name := "Notes";
     path := "/opt/gone.exe"; description := ""; entry_type := "app" |}.

Definition notes_and_gone : MainWindow :=
  {| entries := [notes; gone];
     list_items := ["id-notes"; "00000000-0000-4000-8000-000000000000"] |}.

(** The entry made from the dropped file /home/u/tool.py. *)
Definition dropped_tool : LauncherEntry :=
  {| id := "00000000-0000-4000-8000-000000000000"; name := "tool";
     path := "/home/u/tool.py"; description := ""; entry_type := "app" |}.

(* ===================================================================== *)
(** * Proofs *)
(* ===================================================================== *)

Section Proofs.
Context `{OsPath} (home : string).
Implicit Types (files : fs) (i j k n : nat) (p : string).

Abbreviation fp := (_data_file home).
Abbreviation bak := (backup_name home).

(** ** Paths *)

Lemma append_nil_r (s : string) : s +:+ "" = s.
Proof. induction s as [|c s IH]; [done|]. change (String c (s +:+ "") = String c s). by rewrite IH. Qed.

Lemma backup_name_inj i j : backup_name home i = backup_name home j → i = j.
Proof.
  unfold backup_name. intros E.
  do 2 apply (inj (String.append _)) in E.
  by apply (inj pretty) in E.
Qed.

Lemma backup_name_not_data_file i : backup_name home i ≠ _data_file home.
Proof.
  unfold backup_name. intros E.
  rewrite <- (append_nil_r (_data_file home)) in E at 2.
  apply (inj (String.append _)) in E. discriminate E.
Qed.

Lemma data_file_not_backup_name i : fp ≠ bak i.
Proof. intros E. symmetry in E. by apply backup_name_not_data_file in E. Qed.

Lemma bak_ne i j : i ≠ j → bak i ≠ bak j.
Proof. intros ? E. by apply backup_name_inj in E. Qed.

Lemma rotate_lookup files i p :
  rotate home files i !! p =
    match files !! bak i with
    | Some c => if decide (p = bak (i + 1)) then Some c
                else if decide (p = bak i) then None else files !! p
    | None => files !! p
    end.
Proof.
  unfold rotate, path_exists, os_remove, os_rename.
  destruct (files !! bak i) as [c|] eqn:Ei.
  - rewrite bool_decide_true; [|by eauto].
    assert (bak i ≠ bak (i + 1)) by (apply bak_ne; lia).
    assert ((if bool_decide (is_Some (files !! bak (i + 1)))
             then delete (bak (i + 1)) files else files) !! bak i = Some c) as ->.
    { case_bool_decide; [rewrite lookup_delete_ne|]; done. }
    case_decide as E1; [subst; by rewrite lookup_insert_eq|].
    rewrite lookup_insert_ne; [|done].
    case_decide as E2; [subst; by rewrite lookup_delete_eq|].
    rewrite lookup_delete_ne; [|done].
    case_bool_decide; [rewrite lookup_delete_ne|]; done.
  - rewrite bool_decide_false; [done|]. by intros [? ?].
Qed.

Lemma rev_seq_S n : rev (seq 1 (S n)) = S n :: rev (seq 1 n).
Proof. by rewrite seq_S, rev_app_distr. Qed.

Lemma rotate_loop n files :
  let r := foldl (rotate home) files (rev (seq 1 n)) in
  (∀ p, (∀ k, 1 ≤ k ≤ n + 1 → p ≠ bak k) → r !! p = files !! p) ∧
  (∀ k, 1 ≤ k < n → r !! bak (k + 1) = files !! bak k) ∧
  (1 ≤ n → r !! bak (n + 1) =
     match files !! bak n with Some c => Some c | None => files !! bak (n + 1) end) ∧
  (1 ≤ n → r !! bak 1 = None).
Proof.
  revert files. induction n as [|n IH]; intros files r.
  { repeat split; intros; try lia; done. }
  subst r. rewrite rev_seq_S. cbn [foldl].
  destruct (IH (rotate home files (S n))) as (Ha & Hb & Hc & Hd).
  assert (∀ k, k ≠ S n → k ≠ S n + 1 →
          rotate home files (S n) !! bak k = files !! bak k) as Hstep.
  { intros k ? ?. rewrite rotate_lookup.
    destruct (files !! bak (S n)); [|done].
    rewrite !decide_False; [done|apply bak_ne..]; done. }
  repeat split.
  - intros p Hp. rewrite Ha; [|intros; apply Hp; lia].
    rewrite rotate_lookup. destruct (files !! bak (S n)); [|done].
    rewrite !decide_False; [done|apply Hp; lia..].
  - intros k Hk. destruct (decide (k = n)) as [->|].
    + rewrite Hc; [|lia]. rewrite Hstep; [|lia..].
      destruct (files !! bak n) as [c|]; [done|].
      rewrite rotate_lookup. replace (n + 1) with (S n) by lia.
      destruct (files !! bak (S n)) eqn:E; [|done].
      rewrite decide_False; [|apply bak_ne; lia]. by rewrite decide_True.
    + rewrite Hb; [|lia]. apply Hstep; lia.
  - intros _. rewrite Ha; [|intros; apply bak_ne; lia].
    rewrite rotate_lookup. destruct (files !! bak (S n)); [|done].
    by rewrite decide_True.
  - intros _. destruct n as [|n].
    + cbn [rev seq foldl app]. rewrite rotate_lookup.
      destruct (files !! bak 1) eqn:E; [|done].
      rewrite decide_False; [|apply bak_ne; lia]. by rewrite decide_True.
    + apply Hd. lia.
Qed.

Lemma backup_data_file_spec files d :
  files !! fp = Some d →
  ∃ files', _backup_data_file home files = Some files' ∧
    files' !! fp = Some d ∧
    files' !! bak 1 = Some d ∧
    (∀ k, 1 ≤ k < 9 → files' !! bak (k + 1) = files !! bak k) ∧
    files' !! bak 10 =
      match files !! bak 9 with Some c => Some c | None => files !! bak 10 end ∧
    (∀ p, p ≠ fp → (∀ k, 1 ≤ k ≤ 10 → p ≠ bak k) → files' !! p = files !! p).
Proof.
  intros Hd. unfold _backup_data_file, path_exists.
  rewrite bool_decide_true; [|by eauto]. cbn [negb].
  destruct (rotate_loop 9 files) as (Ha & Hb & Hc & Hd1).
  set (r := foldl (rotate home) files (rev (seq 1 9))) in *.
  rewrite Hd1; [|lia]. rewrite bool_decide_false; [|by intros [? ?]].
  assert (r !! fp = Some d) as Hr.
  { rewrite Ha; [done|]. intros k _. apply data_file_not_backup_name. }
  unfold shutil_copy2. rewrite decide_False; [|apply data_file_not_backup_name].
  rewrite Hr. cbn [mbind option_bind]. eexists; split; [reflexivity|].
  assert (bak 1 ≠ fp) by apply backup_name_not_data_file.
  repeat split.
  - rewrite lookup_insert_ne; [exact Hr|assumption].
  - apply lookup_insert_eq.
  - intros k Hk. rewrite lookup_insert_ne; [|apply bak_ne; lia]. apply Hb. lia.
  - rewrite lookup_insert_ne; [|apply bak_ne; lia]. apply (Hc ltac:(lia)).
  - intros p Hp Hk. rewrite lookup_insert_ne; [|by intros E; apply (Hk 1); [lia|]].
    apply Ha. intros. apply Hk. lia.
Qed.

Lemma backup_data_file_absent files :
  files !! fp = None → _backup_data_file home files = Some files.
Proof.
  intros E. unfold _backup_data_file, path_exists.
  rewrite bool_decide_false; [done|]. rewrite E. by intros [? ?].
Qed.

(** The save returns, whatever the files are. *)
Lemma save_entries_returns entries files : is_Some (save_entries home entries files).
Proof.
  unfold save_entries. destruct (files !! fp) as [d|] eqn:E.
  - destruct (backup_data_file_spec files d E) as (files' & -> & _). by eexists.
  - rewrite backup_data_file_absent; [|done]. by eexists.
Qed.

Lemma save_entries_spec entries files d :
  files !! fp = Some d →
  ∃ files', save_entries home entries files = Some files' ∧
    files' !! fp = Some (Json (document entries)) ∧
    files' !! bak 1 = Some d ∧
    (∀ k, 1 ≤ k < 9 → files' !! bak (k + 1) = files !! bak k) ∧
    files' !! bak 10 =
      match files !! bak 9 with Some c => Some c | None => files !! bak 10 end.
Proof.
  intros Hd. unfold save_entries.
  destruct (backup_data_file_spec files d Hd) as (files' & -> & _ & H1 & Hk & H10 & _).
  cbn [mbind option_bind]. eexists; split; [reflexivity|].
  repeat split.
  - apply lookup_insert_eq.
  - rewrite lookup_insert_ne; [exact H1|apply data_file_not_backup_name].
  - intros k ?. rewrite lookup_insert_ne; [|apply data_file_not_backup_name]. by apply Hk.
  - rewrite lookup_insert_ne; [exact H10|apply data_file_not_backup_name].
Qed.

Lemma save_all_snoc saves entries files :
  save_all home (saves ++ [entries]) files =
  save_all home saves files ≫= save_entries home entries.
Proof. unfold save_all. by rewrite foldl_app. Qed.

Lemma history_snoc d0 saves entries :
  history d0 (saves ++ [entries]) = history d0 saves ++ [Json (document entries)].
Proof. unfold history. by rewrite fmap_app. Qed.

Lemma length_history d0 saves : length (history d0 saves) = S (length saves).
Proof. unfold history. cbn. by rewrite length_fmap. Qed.

(** After the saves, generation [k] holds the state [k] saves back; where
    no backup was found at the start, there is no generation beyond the
    number of saves. *)
Lemma save_all_generations saves files d0 :
  files !! fp = Some d0 →
  ∃ files', save_all home saves files = Some files' ∧
    files' !! fp = history d0 saves !! length saves ∧
    (∀ k, 1 ≤ k ≤ 10 → k ≤ length saves →
       files' !! bak k = history d0 saves !! (length saves - k)) ∧
    ((∀ k, 1 ≤ k ≤ 10 → files !! bak k = None) →
       ∀ k, 1 ≤ k ≤ 10 → length saves < k → files' !! bak k = None).
Proof.
  intros Hd. induction saves as [|entries saves IH] using rev_ind.
  { exists files. split; [done|]. split; [done|].
    split; [intros k Hk Hle; cbn in Hle; lia|]. intros Hnone k Hk _. by apply Hnone. }
  destruct IH as (filesN & Hrun & Hfp & Hgen & Hfree).
  assert (∀ j, j ≤ length saves → is_Some (history d0 saves !! j)) as Hsome.
  { intros j ?. apply lookup_lt_is_Some. rewrite length_history. lia. }
  destruct (Hsome (length saves) ltac:(lia)) as [d Hd'].
  rewrite Hd' in Hfp.
  destruct (save_entries_spec entries filesN d Hfp) as (files' & Hs & Hfp' & H1 & Hk & H10).
  exists files'. rewrite save_all_snoc, Hrun. cbn [mbind option_bind]. split; [done|].
  rewrite history_snoc, length_app. cbn [length].
  replace (length saves + 1) with (S (length saves)) by lia.
  assert (∀ j, j ≤ length saves →
    (history d0 saves ++ [Json (document entries)]) !! j = history d0 saves !! j) as Hold.
  { intros j ?. apply lookup_app_l. rewrite length_history. lia. }
  repeat split.
  - rewrite Hfp'. rewrite lookup_app_r; rewrite length_history; [|lia].
    by rewrite Nat.sub_diag.
  - intros k Hk' Hle. rewrite Hold; [|lia].
    destruct (decide (k = 1)) as [->|].
    { rewrite H1, <- Hd'. f_equal. lia. }
    replace (S (length saves) - k) with (length saves - (k - 1)) by lia.
    destruct (decide (k = 10)) as [->|].
    + rewrite H10, (Hgen 9); [|lia..].
      change (10 - 1) with 9.
      by destruct (Hsome (length saves - 9) ltac:(lia)) as [c ->].
    + replace k with ((k - 1) + 1) at 1 by lia. rewrite Hk; [|lia].
      apply Hgen; lia.
  - intros Hnone k Hk' Hlt. specialize (Hfree Hnone).
    destruct (decide (k = 10)) as [->|].
    + rewrite H10, (Hfree 9), (Hfree 10); [done|lia..].
    + replace k with ((k - 1) + 1) by lia. rewrite Hk; [|lia].
      apply Hfree; lia.
Qed.

Lemma filter_le_seq n m : filter (λ k, k ≤ n) (seq 1 m) = seq 1 (n `min` m).
Proof.
  induction m as [|m IH]; [by rewrite Nat.min_0_r|].
  rewrite seq_S, filter_app, IH. cbn [filter list_filter].
  case_decide.
  - cbn. replace (n `min` S m) with (S m) by lia.
    replace (n `min` m) with m by lia. by rewrite seq_S.
  - rewrite app_nil_r. f_equal. lia.
Qed.

Lemma history_take d0 saves j :
  history d0 (take j saves) = take (S j) (history d0 saves).
Proof. unfold history. cbn. by rewrite fmap_take. Qed.

(** The document as of save number [j]. *)
Lemma save_all_prefix saves files d0 j :
  files !! fp = Some d0 →
  j ≤ length saves →
  ∃ files', save_all home (take j saves) files = Some files' ∧
    files' !! fp = history d0 saves !! j.
Proof.
  intros Hd Hj.
  destruct (save_all_generations (take j saves) files d0 Hd) as (files' & Hrun & Hfp & _).
  exists files'. split; [done|].
  rewrite Hfp, length_take, history_take.
  replace (j `min` length saves) with j by lia.
  apply lookup_take_lt. lia.
Qed.

Lemma get_backup_files_generations files n :
  (∀ k, 1 ≤ k ≤ 10 → is_Some (files !! bak k) ↔ k ≤ n) →
  get_backup_files home files = bak <$> seq 1 (n `min` 10).
Proof.
  intros Hgen. unfold get_backup_files. rewrite <- filter_le_seq.
  assert (∀ k, k ∈ seq 1 10 → 1 ≤ k ≤ 10) as Hin.
  { intros k Hk%elem_of_seq. lia. }
  induction (seq 1 10) as [|k l IH]; [done|].
  rewrite fmap_cons, !filter_cons.
  rewrite IH; [|intros; apply Hin; by right].
  specialize (Hgen k (Hin k ltac:(by left))).
  destruct (decide (is_Some (files !! bak k))), (decide (k ≤ n)); try done; tauto.
Qed.

(** ** Loading *)

Lemma length_hex n (z : Z) : String.length (hex n z) = n.
Proof. induction n as [|n IH]; cbn; [done|]. by rewrite IH. Qed.

Lemma length_append (s t : string) :
  String.length (s +:+ t) = String.length s + String.length t.
Proof.
  induction s as [|c s IH]; [done|].
  change (S (String.length (s +:+ t)) = S (String.length s + String.length t)).
  by rewrite IH.
Qed.

Lemma length_str_uuid (z : Z) : String.length (str_uuid z) = 36.
Proof. unfold str_uuid. rewrite !length_append, !length_hex. done. Qed.

Lemma length_draw g j : String.length (draw g j) = 36.
Proof. apply length_str_uuid. Qed.

Lemma draw_ne_empty g j : draw g j ≠ "".
Proof. intros E. pose proof (length_draw g j) as L. rewrite E in L. discriminate L. Qed.

Lemma entry_of_dict_asdict fresh e : ∃ it, asdict e = JObj it ∧ entry_of_dict fresh it = Some e.
Proof. destruct e. eexists. split; [reflexivity|]. reflexivity. Qed.

Lemma load_items_asdict entries result g :
  (load_items (asdict <$> entries) result g).1 = Loaded (result ++ entries).
Proof.
  revert result g. induction entries as [|e entries IH]; intros result g.
  { cbn. by rewrite app_nil_r. }
  destruct (entry_of_dict_asdict (uuid4 g).1 e) as (it & Ha & He).
  rewrite fmap_cons, Ha. cbn [load_items].
  destruct (uuid4 g) as [fresh g'] eqn:Eu. cbn [fst] in He. rewrite He.
  rewrite IH. by rewrite <- app_assoc.
Qed.

Lemma save_entries_document entries files files' :
  save_entries home entries files = Some files' →
  files' !! fp = Some (Json (document entries)).
Proof.
  unfold save_entries. destruct (_backup_data_file home files); [|done].
  cbn [mbind option_bind]. intros [= <-]. apply lookup_insert_eq.
Qed.

Lemma load_entries_document files g data items :
  files !! fp = Some (Json (JObj data)) →
  dict_get "entries" data = Some (JArr items) →
  load_entries home files g = load_items items [] g.
Proof. intros E1 E2. unfold load_entries. by rewrite E1, E2. Qed.

Lemma draw_next g j :
  draw {| urandom := urandom g; calls := S (calls g) |} j = draw g (S j).
Proof. unfold draw. cbn. do 3 f_equal. lia. Qed.

Lemma draw_0 g : draw g 0 = (uuid4 g).1.
Proof. unfold draw. cbn. by rewrite Nat.add_0_r. Qed.

(** What the loop yields: the entries built so far, then one entry per
    dict of the array, in order, the [j]-th built with the [j]-th draw. *)
Lemma load_items_spec items result g loaded g' :
  load_items items result g = (Loaded loaded, g') →
  ∃ new, loaded = result ++ new ∧
    length new = length (objects items) ∧
    ∀ j it, objects items !! j = Some it →
      ∃ e, new !! j = Some e ∧ entry_of_dict (draw g j) it = Some e.
Proof.
  revert result g. induction items as [|item items IH]; intros result g Hl.
  { injection Hl as <- <-. exists []. rewrite app_nil_r. by repeat split. }
  destruct item as [| | | | |it]; cbn [load_items] in Hl;
    try (destruct (IH _ _ Hl) as (new & ? & ? & ?); by exists new).
  destruct (uuid4 g) as [fresh g1] eqn:Eu.
  destruct (entry_of_dict fresh it) as [e|] eqn:Ee; [|done].
  destruct (IH _ _ Hl) as (new & -> & Hlen & Hnew).
  exists (e :: new). split; [by rewrite <- app_assoc|].
  split; [cbn; by rewrite Hlen|].
  intros [|j] it' Hj; cbn in Hj.
  - injection Hj as <-. exists e. split; [done|].
    rewrite draw_0, Eu. done.
  - destruct (Hnew j it' Hj) as (e' & ? & He'). exists e'. split; [done|].
    rewrite <- draw_next. unfold uuid4 in Eu. injection Eu as _ <-. done.
Qed.

(** ** Reordering *)

Implicit Types (es : list LauncherEntry) (e : LauncherEntry) (self : MainWindow).

Lemma id_to_entry_snoc es e : id_to_entry (es ++ [e]) = <[id e := e]> (id_to_entry es).
Proof. unfold id_to_entry. by rewrite foldl_app. Qed.

Lemma id_to_entry_lookup_Some es eid e :
  id_to_entry es !! eid = Some e → e ∈ es ∧ id e = eid.
Proof.
  induction es as [|e' es IH] using rev_ind; [done|].
  rewrite id_to_entry_snoc, lookup_insert. case_decide as E.
  - intros [= <-]. split; [|done]. apply elem_of_app. right. by left.
  - intros [? ?]%IH. split; [|done]. apply elem_of_app. by left.
Qed.

Lemma id_to_entry_is_Some es eid :
  eid ∈ id <$> es → is_Some (id_to_entry es !! eid).
Proof.
  induction es as [|e' es IH] using rev_ind; [by intros ?%elem_of_nil|].
  rewrite fmap_app, elem_of_app, id_to_entry_snoc, lookup_insert. intros [Hin|Hin].
  - case_decide; [by eexists|by apply IH].
  - apply list_elem_of_singleton in Hin as ->. rewrite decide_True; [by eexists|done].
Qed.

Lemma NoDup_fmap_inj es e e' :
  NoDup (id <$> es) → e ∈ es → e' ∈ es → id e = id e' → e = e'.
Proof.
  induction es as [|x es IH]; [by intros _ ?%elem_of_nil|].
  rewrite fmap_cons, NoDup_cons. intros [Hx Hnd] [->|He]%elem_of_cons [->|He']%elem_of_cons E.
  - done.
  - destruct Hx. rewrite E. by apply list_elem_of_fmap_2.
  - destruct Hx. rewrite <- E. by apply list_elem_of_fmap_2.
  - by apply IH.
Qed.

Lemma id_to_entry_NoDup es e :
  NoDup (id <$> es) → e ∈ es → id_to_entry es !! id e = Some e.
Proof.
  intros Hnd Hin. destruct (id_to_entry_is_Some es (id e)) as [e' He'].
  { by apply list_elem_of_fmap_2. }
  rewrite He'. f_equal. apply id_to_entry_lookup_Some in He' as [Hin' Hid].
  by apply (NoDup_fmap_inj es).
Qed.

Lemma omap_lookup_ids es (m : gmap string LauncherEntry) :
  (∀ e, e ∈ es → m !! id e = Some e) →
  omap (λ eid, m !! eid) (id <$> es) = es.
Proof.
  induction es as [|e es IH]; intros Hm; [done|].
  rewrite fmap_cons. cbn [omap list_omap]. cbn beta. rewrite (Hm e); [|by left].
  f_equal. apply IH. intros. apply Hm. by right.
Qed.

Lemma fmap_id_omap_lookup es (ids : list string) :
  (∀ eid, eid ∈ ids → eid ∈ id <$> es) →
  id <$> omap (λ eid, id_to_entry es !! eid) ids = ids.
Proof.
  induction ids as [|eid ids IH]; intros Hin; [done|].
  cbn [omap list_omap]. cbn beta. destruct (id_to_entry_is_Some es eid) as [e He]; [apply Hin; by left|].
  rewrite He. rewrite fmap_cons. apply id_to_entry_lookup_Some in He as [_ ->].
  f_equal. apply IH. intros. apply Hin. by right.
Qed.

Lemma missing_ids_spec self :
  (list_to_set (id <$> entries self) ∖ list_to_set (read_ordered_ids self) : gset string) ≠ ∅ ↔
  ∃ eid, eid ∈ id <$> entries self ∧ eid ∉ read_ordered_ids self.
Proof.
  split.
  - intros [eid Hin]%set_choose_L. exists eid.
    by rewrite elem_of_difference, !elem_of_list_to_set in Hin.
  - intros (eid & H1 & H2) E.
    assert (eid ∈ (list_to_set (id <$> entries self) ∖
                   list_to_set (read_ordered_ids self) : gset string)) as Hin.
    { by rewrite elem_of_difference, !elem_of_list_to_set. }
    rewrite E in Hin. by apply not_elem_of_empty in Hin.
Qed.

(** A report that lists every id once is applied and saved. *)
Lemma reorder_applied self files :
  read_ordered_ids self ≡ₚ id <$> entries self →
  NoDup (read_ordered_ids self) →
  ∃ files',
    let new_entries :=
      omap (λ eid, id_to_entry (entries self) !! eid) (read_ordered_ids self) in
    _save_current_order home self files =
      Some (order_saved, {| entries := new_entries; list_items := list_items self |}, files') ∧
    save_entries home new_entries files = Some files' ∧
    id <$> new_entries = read_ordered_ids self ∧
    new_entries ≡ₚ entries self.
Proof.
  intros Hperm Hnd.
  assert (NoDup (id <$> entries self)) as Hnd' by by rewrite <- Hperm.
  assert (id <$> omap (λ eid, id_to_entry (entries self) !! eid) (read_ordered_ids self)
          = read_ordered_ids self) as Hids.
  { apply fmap_id_omap_lookup. intros eid. by rewrite Hperm. }
  assert (omap (λ eid, id_to_entry (entries self) !! eid) (read_ordered_ids self)
          ≡ₚ entries self) as Hnew.
  { rewrite Hperm. rewrite omap_lookup_ids; [done|].
    intros e ?. by apply id_to_entry_NoDup. }
  destruct (save_entries_returns
    (omap (λ eid, id_to_entry (entries self) !! eid) (read_ordered_ids self)) files)
    as [files' Hsave].
  exists files'. cbn zeta. repeat split; [|done..].
  unfold _save_current_order.
  rewrite decide_False.
  2:{ rewrite missing_ids_spec. intros (eid & H1 & H2). by rewrite Hperm in H2. }
  rewrite decide_False; [|intros Hne; apply Hne; by rewrite size_list_to_set].
  rewrite decide_True; [|by rewrite Hnew].
  rewrite Hsave. done.
Qed.

(** ** Claims about the store *)

(** C2 (amended). After N >= 1 saves of a document that exists, generation 1 is the
    document as it was just before the latest save, and after 12 saves
    generation 10 is the document as written by save number 2.  Counted
    from a document that has no backup yet (or once ten saves are done),
    exactly min(N,10) backup generations exist: generations 1 to
    min(N,10).  Generations found at the start stay, moved up, until they
    pass generation 10. *)
Theorem backup_generations_after_saves saves files d0 :
  files !! fp = Some d0 →
  1 ≤ length saves →
  ∃ files' before,
    save_all home saves files = Some files' ∧
    save_all home (take (length saves - 1) saves) files = Some before ∧
    is_Some (before !! fp) ∧
    files' !! bak 1 = before !! fp ∧
    ((∀ k, 1 ≤ k ≤ 10 → files !! bak k = None) ∨ 10 ≤ length saves →
       get_backup_files home files' = bak <$> seq 1 (length saves `min` 10) ∧
       length (get_backup_files home files') = length saves `min` 10) ∧
    (length saves = 12 →
       ∃ second entries2,
         save_all home (take 2 saves) files = Some second ∧
         saves !! 1 = Some entries2 ∧
         second !! fp = Some (Json (document entries2)) ∧
         files' !! bak 10 = second !! fp).
Proof.
  intros Hd Hlen.
  destruct (save_all_generations saves files d0 Hd) as (files' & Hrun & _ & Hgen & Hfree).
  destruct (save_all_prefix saves files d0 (length saves - 1) Hd ltac:(lia))
    as (before & Hbefore & Hbfp).
  assert (∀ j, j ≤ length saves → is_Some (history d0 saves !! j)) as Hsome.
  { intros j ?. apply lookup_lt_is_Some. rewrite length_history. lia. }
  exists files', before. split; [done|]. split; [done|].
  split; [rewrite Hbfp; apply Hsome; lia|].
  split; [rewrite Hbfp; apply Hgen; lia|]. split.
  - intros Hcount.
    assert (get_backup_files home files' = bak <$> seq 1 (length saves `min` 10)) as Hfiles.
    { apply get_backup_files_generations. intros k Hk.
      destruct (decide (k ≤ length saves)) as [Hle|Hgt].
      - rewrite (Hgen k Hk Hle). split; [done|]. intros _. apply Hsome. lia.
      - destruct Hcount as [Hnone|?]; [|lia].
        rewrite (Hfree Hnone k Hk); [|lia]. split; [by intros [? ?]|lia]. }
    split; [done|]. by rewrite Hfiles, length_fmap, length_seq.
  - intros H12.
    destruct (save_all_prefix saves files d0 2 Hd ltac:(lia)) as (second & Hsecond & Hsfp).
    destruct (lookup_lt_is_Some_2 saves 1 ltac:(lia)) as [entries2 He2].
    exists second, entries2. split; [done|]. split; [done|]. split.
    + rewrite Hsfp.
      change (((λ entries, Json (document entries)) <$> saves) !! 1 = Some (Json (document entries2))).
      by rewrite list_lookup_fmap, He2.
    + rewrite Hsfp, (Hgen 10); [|lia..]. by rewrite H12.
Qed.

(** C8. A restore that succeeds copies the chosen backup over the document
    as it is and changes nothing else: every other file, the backup
    generations among them, is as before, and the entries held in memory
    are not touched. *)
Theorem restore_changes_document_only self backups current_row files self' files' :
  do_restore home self backups current_row files = (self', files', [information_restored]) →
  ∃ backup_path,
    backups !! Z.to_nat current_row = Some backup_path ∧
    restore_from_backup home backup_path files = (true, files') ∧
    is_Some (files !! backup_path) ∧
    files' !! fp = files !! backup_path ∧
    (∀ p, p ≠ fp → files' !! p = files !! p) ∧
    (∀ k, files' !! bak k = files !! bak k) ∧
    self' = self.
Proof.
  unfold do_restore. destruct (0 <=? current_row)%Z; [|done].
  destruct (backups !! Z.to_nat current_row) as [backup_path|]; [|done].
  destruct (restore_from_backup home backup_path files) as [[] files1] eqn:Er; [|done].
  intros [= <- <-]. exists backup_path.
  unfold restore_from_backup, shutil_copy2 in Er.
  destruct (decide (backup_path = fp)); [done|].
  destruct (files !! backup_path) as [c|] eqn:Ec; [|done].
  cbn [mbind option_bind] in Er. injection Er as <-.
  repeat split.
  - unfold restore_from_backup, shutil_copy2. rewrite decide_False; [|done]. by rewrite Ec.
  - by eexists.
  - apply lookup_insert_eq.
  - intros p ?. by rewrite lookup_insert_ne.
  - intros k. rewrite lookup_insert_ne; [done|apply data_file_not_backup_name].
Qed.

(** C5. Whatever the entries, what [load_entries] reads from the files
    that [save_entries] leaves is the same entries in the same order, each
    with the same id, name, path, description and entry_type. *)
Theorem save_then_load entries files g :
  ∃ files',
    save_entries home entries files = Some files' ∧
    (load_entries home files' g).1 = Loaded entries.
Proof.
  destruct (save_entries_returns entries files) as [files' Hsave].
  exists files'. split; [done|].
  rewrite (load_entries_document files' g [("entries", JArr (asdict <$> entries))]
             (asdict <$> entries)).
  - apply load_items_asdict.
  - by apply save_entries_document in Hsave.
  - reflexivity.
Qed.

Lemma entry_of_dict_fields fresh it e :
  entry_of_dict fresh it = Some e →
  get_str "id" fresh it = Some (id e) ∧ get_str "name" "" it = Some (name e).
Proof.
  unfold entry_of_dict. intros He.
  destruct (get_str "id" fresh it); [|done].
  destruct (get_str "name" "" it); [|done].
  destruct (get_str "path" "" it); [|done].
  destruct (get_str "description" "" it); [|done].
  destruct (get_str "entry_type" "app" it); [|done].
  cbn in He. by injection He as <-.
Qed.

Lemma get_str_absent key default it s :
  dict_get key it = None → get_str key default it = Some s → s = default.
Proof. unfold get_str. intros ->. by intros [= <-]. Qed.

Lemma get_str_present key default it s v :
  dict_get key it = Some (JStr v) → get_str key default it = Some s → s = v.
Proof. unfold get_str. intros ->. by intros [= <-]. Qed.

(** C3 (amended). Loading a structurally valid document whose array holds
    two records yields two entries in array order; a record that lacks the
    [name] member is not dropped: its entry has the empty name. *)
Theorem load_keeps_record_without_name files g data r1 r2 e1 e2 :
  files !! fp = Some (Json (JObj data)) →
  dict_get "entries" data = Some (JArr [JObj r1; JObj r2]) →
  entry_of_dict (draw g 0) r1 = Some e1 →
  entry_of_dict (draw g 1) r2 = Some e2 →
  (load_entries home files g).1 = Loaded [e1; e2] ∧
  (dict_get "name" r1 = None → name e1 = "") ∧
  (dict_get "name" r2 = None → name e2 = "").
Proof.
  intros Hfile Hdata He1 He2. repeat split.
  - rewrite (load_entries_document files g data _ Hfile Hdata).
    cbn [load_items]. rewrite draw_0 in He1.
    destruct (uuid4 g) as [fresh g1] eqn:Eu. cbn [fst] in He1. rewrite He1.
    unfold uuid4 in Eu. injection Eu as _ <-.
    rewrite <- draw_next, draw_0 in He2.
    destruct (uuid4 _) as [fresh2 g2]. cbn [fst] in He2. by rewrite He2.
  - intros Hn. apply entry_of_dict_fields in He1 as [_ He1].
    by apply (get_str_absent _ _ _ _ Hn) in He1.
  - intros Hn. apply entry_of_dict_fields in He2 as [_ He2].
    by apply (get_str_absent _ _ _ _ Hn) in He2.
Qed.

(** C10 (amended). Loading drops no record for want of an [id]: the array's
    dicts give one entry each, in order; a record without an [id] member
    gets the identifier of its own [uuid4] draw, 36 characters long; a
    record with an [id] member keeps that value, empty or not. *)
Theorem load_assigns_missing_ids files g data items loaded :
  files !! fp = Some (Json (JObj data)) →
  dict_get "entries" data = Some (JArr items) →
  (load_entries home files g).1 = Loaded loaded →
  length loaded = length (objects items) ∧
  ∀ j it, objects items !! j = Some it →
    ∃ e, loaded !! j = Some e ∧
      (dict_get "id" it = None →
         id e = draw g j ∧ String.length (id e) = 36 ∧ id e ≠ "") ∧
      (∀ s, dict_get "id" it = Some (JStr s) → id e = s).
Proof.
  intros Hfile Hdata Hload.
  rewrite (load_entries_document files g data _ Hfile Hdata) in Hload.
  destruct (load_items items [] g) as [r g'] eqn:El. cbn [fst] in Hload. subst r.
  destruct (load_items_spec _ _ _ _ _ El) as (new & -> & Hlen & Hnew).
  rewrite app_nil_l. split; [done|].
  intros j it Hj. destruct (Hnew j it Hj) as (e & Hlook & He).
  exists e. split; [done|].
  apply entry_of_dict_fields in He as [Hid _]. split.
  - intros Habs. apply (get_str_absent _ _ _ _ Habs) in Hid. rewrite Hid.
    split; [done|]. split; [apply length_draw|apply draw_ne_empty].
  - intros s Hs. by apply (get_str_present _ _ _ _ _ Hs) in Hid.
Qed.

(** ** Claims about the reorder *)

(** C1 (amended). [_save_current_order] always returns.  It rejects the
    report as incomplete, rebuilding the list from the entries, exactly
    when an id of an entry is missing from the report; the entries are then
    as before, in the same order, and no file is written.  Ids in the report
    that no entry has do not make it incomplete. *)
Theorem reorder_rejected_iff_missing self files :
  ∃ exit self' files',
    _save_current_order home self files = Some (exit, self', files') ∧
    (exit = missing_refreshed ↔
       ∃ eid, eid ∈ id <$> entries self ∧ eid ∉ read_ordered_ids self) ∧
    (exit = missing_refreshed →
       entries self' = entries self ∧ list_items self' = id <$> entries self ∧
       files' = files).
Proof.
  unfold _save_current_order.
  destruct (decide (_ ≠ ∅)) as [Hmiss|Hnone].
  { do 3 eexists. split; [done|]. split; [|done].
    split; [intros _; by apply missing_ids_spec|done]. }
  rewrite missing_ids_spec in Hnone.
  destruct (decide (length _ ≠ size _)).
  { do 3 eexists. split; [done|]. split; [|done]. split; [done|tauto]. }
  destruct (decide (length _ = length _)).
  - destruct (save_entries_returns
      (omap (λ eid, id_to_entry (entries self) !! eid) (read_ordered_ids self)) files)
      as [files' ->].
    do 3 eexists. split; [done|]. split; [|done]. split; [done|tauto].
  - do 3 eexists. split; [done|]. split; [|done]. split; [done|tauto].
Qed.

(** C4. A report that is a permutation without repetition of the ids of
    the entries is applied: the new list is the entries found by id, in
    the order reported; it holds the same entries as before, none of them
    altered; it replaces the old list in memory and is saved. *)
Theorem reorder_permutation_applied self files :
  read_ordered_ids self ≡ₚ id <$> entries self →
  NoDup (read_ordered_ids self) →
  ∃ new_entries files',
    _save_current_order home self files =
      Some (order_saved, {| entries := new_entries; list_items := list_items self |}, files') ∧
    id <$> new_entries = read_ordered_ids self ∧
    new_entries ≡ₚ entries self ∧
    (∀ e, e ∈ new_entries → e ∈ entries self) ∧
    save_entries home new_entries files = Some files' ∧
    files' !! fp = Some (Json (document new_entries)).
Proof.
  intros Hperm Hnd.
  destruct (reorder_applied self files Hperm Hnd) as (files' & Hrun & Hsave & Hids & Hnew).
  do 2 eexists. split; [exact Hrun|]. repeat split; try done.
  - intros e. by rewrite Hnew.
  - by apply save_entries_document in Hsave.
Qed.

(** C9. Applying such a report twice in a row leaves the entries in the
    order the first application gave them. *)
Theorem reorder_twice self files :
  read_ordered_ids self ≡ₚ id <$> entries self →
  NoDup (read_ordered_ids self) →
  ∃ self1 files1 self2 files2,
    _save_current_order home self files = Some (order_saved, self1, files1) ∧
    _save_current_order home self1 files1 = Some (order_saved, self2, files2) ∧
    entries self2 = entries self1.
Proof.
  intros Hperm Hnd.
  destruct (reorder_applied self files Hperm Hnd) as (files1 & Hrun1 & _ & Hids & _).
  set (new_entries := omap _ _) in *.
  set (self1 := {| entries := new_entries; list_items := list_items self |}) in *.
  assert (read_ordered_ids self1 = read_ordered_ids self) as Hsame by done.
  destruct (reorder_applied self1 files1) as (files2 & Hrun2 & _).
  { by rewrite Hsame, <- Hids. }
  { by rewrite Hsame. }
  do 4 eexists. split; [exact Hrun1|]. split; [exact Hrun2|].
  cbn [entries]. rewrite Hsame, <- Hids. apply omap_lookup_ids.
  intros e ?. apply id_to_entry_NoDup; [|done].
  change (NoDup (id <$> new_entries)). by rewrite Hids.
Qed.

(** ** Claims about the dialog and the launch *)

Lemma get_entry_spec (dlg : EntryDialog) (u : user) files g :
  let w := ui dlg in
  let nm := strip (name_edit w) in
  let pth := strip (path_edit w) in
  let invalid := nm = "" ∨ (type_combo w ≠ 1 ∧ pth = "") in
  ∃ result boxes g',
    get_entry dlg u files g = (result, boxes, g') ∧
    (validation_error boxes ↔ invalid) ∧
    (invalid → result = None) ∧
    (¬ invalid → type_combo w ≠ 1 → path_exists files pth = false →
       boxes = [question_path_not_found] ∧ (answers_yes u = false → result = None)) ∧
    (¬ invalid → type_combo w = 1 ∨ path_exists files pth = true ∨ answers_yes u = true →
       ∃ entry, result = Some entry ∧ name entry = nm ∧
         description entry = strip (desc_edit w) ∧
         (type_combo w ≠ 1 → path entry = pth ∧ entry_type entry = "app") ∧
         (type_combo w = 1 → path entry = "" ∧ entry_type entry = "separator")).
Proof.
  intros w nm pth invalid. subst invalid. unfold get_entry, validation_error, falsy.
  fold w. fold nm. fold pth.
  destruct (uuid4 g) as [fresh g1].
  repeat case_bool_decide;
    destruct (path_exists files pth), (answers_yes u), (_is_edit dlg), (_entry dlg);
    cbn [negb]; do 3 eexists; (split; [reflexivity|]); naive_solver.
Qed.

(** C6. When the dialog is closed with the save button, the add is refused
    with a validation warning exactly when the trimmed name is empty, or
    the kind is application and the trimmed path is empty; nothing is added
    then.  A path that names no file is not such a refusal: the question
    box is raised, and on the answer yes, as for a category or a path that
    exists, the entry is appended after the entries held and the list is
    saved. *)
Theorem add_entry_validation self from_path (u : user) files g :
  accepts u = true →
  let w := fill u (ui (open_dialog from_path g).1) in
  let nm := strip (name_edit w) in
  let pth := strip (path_edit w) in
  let invalid := nm = "" ∨ (type_combo w ≠ 1 ∧ pth = "") in
  ∃ self' files' g' boxes,
    add_entry_dialog home self from_path u files g = Some (self', files', g', boxes) ∧
    (validation_error boxes ↔ invalid) ∧
    (invalid → entries self' = entries self ∧ files' = files) ∧
    (¬ invalid → type_combo w ≠ 1 → path_exists files pth = false →
       boxes = [question_path_not_found] ∧
       (answers_yes u = false → entries self' = entries self ∧ files' = files)) ∧
    (¬ invalid → type_combo w = 1 ∨ path_exists files pth = true ∨ answers_yes u = true →
       ∃ entry,
         entries self' = entries self ++ [entry] ∧
         name entry = nm ∧
         (type_combo w ≠ 1 → path entry = pth ∧ entry_type entry = "app") ∧
         (type_combo w = 1 → path entry = "" ∧ entry_type entry = "separator") ∧
         save_entries home (entries self ++ [entry]) files = Some files').
Proof.
  intros Hacc w nm pth invalid. unfold add_entry_dialog.
  subst invalid pth nm w.
  destruct (open_dialog from_path g) as [dlg0 g0]. cbn [fst].
  unfold exec. rewrite Hacc.
  set (dlg := {| _is_edit := _is_edit dlg0; _entry := _entry dlg0; ui := fill u (ui dlg0) |}).
  destruct (get_entry_spec dlg u files g0)
    as (result & boxes & g' & -> & Hval & Hinv & Hq & Hok).
  cbn [ui dlg] in Hval, Hinv, Hq, Hok.
  destruct result as [entry|].
  - destruct (save_entries_returns (entries self ++ [entry]) files) as [files' Hsave].
    rewrite Hsave. cbn [mbind option_bind]. do 4 eexists. split; [reflexivity|].
    cbn [entries _refresh_list].
    split; [done|]. split; [intros Hi; by specialize (Hinv Hi)|].
    split.
    + intros Hv Ht He. destruct (Hq Hv Ht He) as [-> Hno]. split; [done|].
      intros Hn. by specialize (Hno Hn).
    + intros Hv Hc. destruct (Hok Hv Hc) as (entry' & [= <-] & ? & ? & ? & ?).
      by exists entry.
  - do 4 eexists. split; [reflexivity|]. split; [done|]. split; [done|].
    split.
    + intros Hv Ht He. by destruct (Hq Hv Ht He) as [-> _].
    + intros Hv Hc. by destruct (Hok Hv Hc) as (entry' & [=] & _).
Qed.

(** C7 (the code at the failing input). A script whose path has no
    directory part is started with [cd /d "None"]: the working directory
    is the printed [None], not the directory of the script. *)
Theorem script_without_directory win files entry :
  entry_type entry ≠ "separator" →
  path_exists files (path entry) = true →
  lower (splitext (path entry)).2 ∈ [".py"; ".pyw"] →
  dirname (path entry) = "" →
  _run_entry win files entry =
    Popen_shell ("start " +:+ dq +:+ "Python: " +:+ name entry +:+ dq +:+ " cmd /k " +:+ dq
                 +:+ "cd /d " +:+ dq +:+ "None" +:+ dq
                 +:+ " && python " +:+ dq +:+ path entry +:+ dq +:+ " && pause" +:+ dq).
Proof.
  intros Ht He Hext Hdir. unfold _run_entry.
  rewrite decide_False; [|done]. rewrite He. cbn [negb].
  rewrite bool_decide_true; [|done]. by rewrite Hdir.
Qed.

(** The branch for executables tests [cwd] first and leaves the [cd] out. *)
Lemma executable_without_directory win files entry :
  entry_type entry ≠ "separator" →
  path_exists files (path entry) = true →
  lower (splitext (path entry)).2 ∈ [".exe"; ".bat"; ".cmd"] →
  dirname (path entry) = "" →
  _run_entry win files entry =
    Popen_shell ("start " +:+ dq +:+ name entry +:+ dq +:+ " cmd /k " +:+ dq
                 +:+ dq +:+ path entry +:+ dq +:+ " && pause" +:+ dq).
Proof.
  intros Ht He Hext Hdir. unfold _run_entry.
  rewrite decide_False; [|done]. rewrite He. cbn [negb].
  rewrite bool_decide_false.
  2:{ intros Hpy.
      assert (lower (splitext (path entry)).2 = ".py" ∨
              lower (splitext (path entry)).2 = ".pyw") as [E|E] by set_solver.
      all: rewrite E in Hext; set_solver. }
  rewrite bool_decide_true; [|done]. by rewrite Hdir.
Qed.

End Proofs.

(* ===================================================================== *)
(** * More about the handlers and the store *)
(* ===================================================================== *)

Section More.
Context `{OsPath} (home : string).
Implicit Types (files : fs) (i j k n : nat) (p : string).
Implicit Types (es : list LauncherEntry) (e : LauncherEntry) (self : MainWindow).

Abbreviation fp := (_data_file home).
Abbreviation bak := (backup_name home).

(** ** Reordering, whatever the report *)

Lemma size_list_to_set_le (l : list string) : size (list_to_set l : gset string) ≤ length l.
Proof.
  induction l as [|x l IH]; [done|].
  cbn [list_to_set length]. pose proof (size_union_alt {[x]} (list_to_set l : gset string)) as Hu.
  rewrite size_singleton in Hu.
  pose proof (subseteq_size (list_to_set l ∖ {[x]}) (list_to_set l : gset string)
                ltac:(set_solver)).
  lia.
Qed.

Lemma NoDup_size_list_to_set (l : list string) :
  size (list_to_set l : gset string) = length l → NoDup l.
Proof.
  induction l as [|x l IH]; [constructor|].
  cbn [list_to_set length]. intros Hsize.
  pose proof (size_list_to_set_le l) as Hle.
  pose proof (size_union_alt {[x]} (list_to_set l : gset string)) as Hu.
  rewrite size_singleton in Hu.
  pose proof (subseteq_size (list_to_set l ∖ {[x]}) (list_to_set l : gset string)
                ltac:(set_solver)) as Hsub.
  assert (size (list_to_set l ∖ {[x]} : gset string) = size (list_to_set l : gset string))
    as Hsame by lia.
  constructor.
  - intros Hin.
    assert (list_to_set l ∖ {[x]} ≠ (list_to_set l : gset string)) as Hne.
    { intros E. assert (x ∈ (list_to_set l : gset string)) as Hx by by apply elem_of_list_to_set.
      rewrite <- E in Hx. set_solver. }
    apply Hne. apply set_subseteq_size_eq; [set_solver|lia].
  - apply IH. lia.
Qed.

Lemma fmap_id_omap_filter es (ordered : list string) :
  id <$> omap (λ eid, id_to_entry es !! eid) ordered =
  filter (λ eid, eid ∈ id <$> es) ordered.
Proof.
  induction ordered as [|eid ordered IH]; [done|].
  cbn [omap list_omap]. cbn beta. rewrite filter_cons.
  destruct (id_to_entry es !! eid) as [e|] eqn:He.
  - apply id_to_entry_lookup_Some in He as [Hin <-].
    rewrite decide_True; [|by apply list_elem_of_fmap_2]. by rewrite fmap_cons, IH.
  - rewrite decide_False; [done|]. intros Hin.
    apply id_to_entry_is_Some in Hin as [? Hin]. by rewrite Hin in He.
Qed.

Lemma elem_of_omap_lookup es (ordered : list string) e :
  e ∈ omap (λ eid, id_to_entry es !! eid) ordered → e ∈ es.
Proof.
  intros (eid & _ & He)%list_elem_of_omap. by apply id_to_entry_lookup_Some in He as [? _].
Qed.

(** What holds when the order was saved. *)
Lemma reorder_saved_inv self files self' files' :
  _save_current_order home self files = Some (order_saved, self', files') →
  NoDup (id <$> entries self) ∧
  entries self' ≡ₚ entries self ∧
  list_items self' = list_items self ∧
  save_entries home (entries self') files = Some files'.
Proof.
  unfold _save_current_order.
  destruct (decide (_ ≠ ∅)); [done|].
  destruct (decide (length _ ≠ size _)) as [|Hsize]; [done|].
  destruct (decide (length _ = length _)) as [Hlen|]; [|done].
  set (new_entries := omap _ _) in *.
  destruct (save_entries home new_entries files) as [files1|] eqn:Hsave; [|done].
  cbn [mbind option_bind]. intros [= <- <-]. cbn [entries list_items].
  assert (NoDup (read_ordered_ids self)) as Hnd.
  { apply NoDup_size_list_to_set. destruct (decide (size (list_to_set (read_ordered_ids self)
      : gset string) = length (read_ordered_ids self))); [done|]. destruct Hsize. congruence. }
  assert (NoDup (id <$> new_entries)) as Hnew.
  { unfold new_entries. rewrite fmap_id_omap_filter. by apply NoDup_filter. }
  assert (NoDup (id <$> entries self)) as Hold.
  { apply NoDup_size_list_to_set. rewrite length_fmap.
    pose proof (size_list_to_set_le (id <$> entries self)) as Hle. rewrite length_fmap in Hle.
    pose proof (subseteq_size (list_to_set (id <$> new_entries) : gset string)
                  (list_to_set (id <$> entries self))) as Hsub.
    rewrite (size_list_to_set (id <$> new_entries)), length_fmap in Hsub; [|done].
    enough (list_to_set (id <$> new_entries) ⊆ (list_to_set (id <$> entries self) : gset string))
      as Hss by (specialize (Hsub Hss); lia).
    intros eid. rewrite !elem_of_list_to_set.
    intros (e & -> & He)%list_elem_of_fmap. apply list_elem_of_fmap_2.
    by apply elem_of_omap_lookup in He. }
  repeat split; try done.
  apply submseteq_length_Permutation; [|lia].
  apply NoDup_submseteq; [by apply NoDup_fmap_1 in Hnew|].
  intros e. apply elem_of_omap_lookup.
Qed.

(** What holds when it was not. *)
Lemma reorder_not_saved_inv self files exit self' files' :
  _save_current_order home self files = Some (exit, self', files') →
  exit ≠ order_saved →
  entries self' = entries self ∧ files' = files.
Proof.
  unfold _save_current_order.
  destruct (decide (_ ≠ ∅)); [by intros [= <- <- <-]|].
  destruct (decide (length _ ≠ size _)); [by intros [= <- <- <-]|].
  destruct (decide (length _ = length _)); [|by intros [= <- <- <-]].
  destruct (save_entries home _ files); [|done].
  cbn [mbind option_bind]. by intros [= <- <- <-].
Qed.

(** X1. Whatever the list reports, [_save_current_order] loses no entry and
    makes none twice: the entries afterwards are a permutation of the
    entries before.  Unless the order was saved they are the same list and
    no file is written; when it was saved the document holds the new list. *)
Theorem reorder_keeps_entries self files exit self' files' :
  _save_current_order home self files = Some (exit, self', files') →
  entries self' ≡ₚ entries self ∧
  (exit ≠ order_saved → entries self' = entries self ∧ files' = files) ∧
  (exit = order_saved → files' !! fp = Some (Json (document (entries self')))).
Proof.
  intros Hrun.
  assert (exit = order_saved ∨ exit ≠ order_saved) as [->|Hne]
    by (destruct exit; (by left) || (by right)).
  - destruct (reorder_saved_inv _ _ _ _ Hrun) as (_ & Hperm & _ & Hsave).
    split; [done|]. split; [done|]. intros _. by apply save_entries_document in Hsave.
  - destruct (reorder_not_saved_inv _ _ _ _ _ Hrun Hne) as [-> ->]. by repeat split.
Qed.

(** X2. While some entry has the empty id no order can be saved: every
    report lacks that id, because empty ids are not read from the list, and
    the handler only rebuilds the list. *)
Theorem reorder_empty_id_rejected self files :
  "" ∈ id <$> entries self →
  _save_current_order home self files = Some (missing_refreshed, _refresh_list self, files).
Proof.
  intros Hempty. unfold _save_current_order. rewrite decide_True; [done|].
  apply missing_ids_spec. exists "". split; [done|].
  unfold read_ordered_ids. rewrite list_elem_of_filter. by intros [? _].
Qed.

(** X3. While two entries share an id no order can be saved: whatever the
    list reports, the entries and the files stay as they are. *)
Theorem reorder_duplicate_ids_never_saved self files exit self' files' :
  ¬ NoDup (id <$> entries self) →
  _save_current_order home self files = Some (exit, self', files') →
  exit ≠ order_saved ∧ entries self' = entries self ∧ files' = files.
Proof.
  intros Hdup Hrun.
  assert (exit ≠ order_saved) as Hne.
  { intros ->. by apply reorder_saved_inv in Hrun as [? _]. }
  split; [done|]. by apply (reorder_not_saved_inv _ _ _ _ _ Hrun).
Qed.

Lemma filter_nonempty_ids (ids : list string) :
  "" ∉ ids → filter (λ eid, eid ≠ "") ids = ids.
Proof.
  induction ids as [|eid ids IH]; [done|].
  rewrite not_elem_of_cons. intros [? ?]. rewrite filter_cons, decide_True; [|done].
  by rewrite IH.
Qed.

(** X4. A report that repeats the order held (distinct ids, none empty) is
    not recognised as no change: the entries stay as they are, but the
    document is written again and the document found becomes backup
    generation 1. *)
Theorem reorder_unmoved_still_saves self files d :
  NoDup (id <$> entries self) →
  "" ∉ id <$> entries self →
  files !! fp = Some d →
  ∃ files',
    _save_current_order home (_refresh_list self) files =
      Some (order_saved, _refresh_list self, files') ∧
    files' !! fp = Some (Json (document (entries self))) ∧
    files' !! bak 1 = Some d.
Proof.
  intros Hnd Hne Hd.
  assert (read_ordered_ids (_refresh_list self) = id <$> entries self) as Hread.
  { unfold read_ordered_ids, _refresh_list. cbn [list_items]. by apply filter_nonempty_ids. }
  destruct (reorder_applied home (_refresh_list self) files) as (files' & Hrun & Hsave & _).
  { by rewrite Hread. }
  { by rewrite Hread. }
  cbn zeta in Hrun, Hsave. rewrite Hread in Hrun, Hsave. cbn [entries _refresh_list] in Hrun, Hsave.
  rewrite omap_lookup_ids in Hrun, Hsave; [|intros e ?; by apply id_to_entry_NoDup..].
  exists files'. split; [exact Hrun|].
  destruct (save_entries_spec home (entries self) files d Hd) as (files1 & Hs & Hdoc & Hb1 & _).
  rewrite Hsave in Hs. injection Hs as <-. by split.
Qed.

(** ** Finding, editing and deleting *)

Lemma find_entry_Some es eid i e :
  _find_entry_by_id es eid = Some (i, e) →
  es !! i = Some e ∧ id e = eid ∧
  ∀ j e', j < i → es !! j = Some e' → id e' ≠ eid.
Proof.
  revert i. induction es as [|x es IH]; intros i; [done|].
  cbn [_find_entry_by_id]. case_decide as Hx.
  - intros [= <- <-]. repeat split; [done|]. intros j e' Hj. lia.
  - destruct (_find_entry_by_id es eid) as [[i' found]|]; [|done].
    cbn [mbind option_bind]. intros [= <- <-].
    destruct (IH i' eq_refl) as (Hlook & Hid & Hfirst).
    repeat split; [done..|]. intros [|j] e' Hj Hl.
    + cbn in Hl. by injection Hl as <-.
    + apply (Hfirst j); [lia|done].
Qed.

Lemma find_entry_None es eid :
  _find_entry_by_id es eid = None → eid ∉ id <$> es.
Proof.
  induction es as [|x es IH]; [intros _; apply not_elem_of_nil|].
  cbn [_find_entry_by_id]. case_decide as Hx; [done|].
  destruct (_find_entry_by_id es eid) as [[i' found]|]; [done|].
  intros _. rewrite fmap_cons, not_elem_of_cons. split; [done|by apply IH].
Qed.

(** X5. [_find_entry_by_id] returns the first entry that has the id, and
    none exactly when no entry has it. *)
Theorem find_entry_first_match es eid :
  match _find_entry_by_id es eid with
  | Some (i, e) =>
      es !! i = Some e ∧ id e = eid ∧ ∀ j e', j < i → es !! j = Some e' → id e' ≠ eid
  | None => eid ∉ id <$> es
  end.
Proof.
  destruct (_find_entry_by_id es eid) as [[i e]|] eqn:Hfind.
  - by apply find_entry_Some.
  - by apply find_entry_None.
Qed.

Lemma id_to_entry_last es eid e :
  id_to_entry es !! eid = Some e →
  ∃ i, es !! i = Some e ∧ id e = eid ∧
    ∀ j e', i < j → es !! j = Some e' → id e' ≠ eid.
Proof.
  induction es as [|x es IH] using rev_ind; [done|].
  rewrite id_to_entry_snoc, lookup_insert. case_decide as Hx.
  - intros [= <-]. exists (length es). split; [by apply list_lookup_middle|].
    split; [done|]. intros j e' Hj Hl. apply lookup_lt_Some in Hl.
    rewrite length_app in Hl. cbn in Hl. lia.
  - intros (i & Hlook & Hid & Hlast)%IH. exists i.
    split; [by apply lookup_app_l_Some|]. split; [done|].
    intros j e' Hj Hl. apply lookup_app_Some in Hl as [Hl|[Hge Hl]].
    + by apply (Hlast j).
    + apply list_lookup_singleton_Some in Hl as [_ <-]. done.
Qed.

(** X6. The search by id that the selection uses takes the first entry with
    the id; the dictionary that the reorder uses takes the last.  While the
    ids are distinct both find the same entry, or both none. *)
Theorem find_entry_agrees_with_dict es eid :
  (∀ i e, _find_entry_by_id es eid = Some (i, e) →
     es !! i = Some e ∧ id e = eid ∧
     ∀ j e', j < i → es !! j = Some e' → id e' ≠ eid) ∧
  (∀ e, id_to_entry es !! eid = Some e →
     ∃ i, es !! i = Some e ∧ id e = eid ∧
       ∀ j e', i < j → es !! j = Some e' → id e' ≠ eid) ∧
  (NoDup (id <$> es) →
     snd <$> _find_entry_by_id es eid = id_to_entry es !! eid).
Proof.
  split; [intros i e; apply find_entry_Some|]. split; [intros e; apply id_to_entry_last|].
  intros Hnd. destruct (_find_entry_by_id es eid) as [[i e]|] eqn:Hfind.
  - apply find_entry_Some in Hfind as (Hlook & <- & _). cbn.
    symmetry. apply id_to_entry_NoDup; [done|]. by eapply list_elem_of_lookup_2.
  - apply find_entry_None in Hfind. cbn.
    destruct (id_to_entry es !! eid) as [e|] eqn:He; [|done].
    apply id_to_entry_lookup_Some in He as [Hin <-]. destruct Hfind.
    by apply list_elem_of_fmap_2.
Qed.

(** What [get_entry] does with the identifier: an edit keeps the id of the
    entry and draws nothing; a new entry gets the next draw; a refusal draws
    nothing. *)
Lemma get_entry_id (dlg : EntryDialog) (u : user) files g result boxes g' :
  get_entry dlg u files g = (result, boxes, g') →
  match result with
  | None => g' = g
  | Some e2 =>
      match _is_edit dlg, _entry dlg with
      | true, Some e => id e2 = id e ∧ g' = g
      | _, _ => id e2 = draw g 0 ∧ g' = (uuid4 g).2
      end
  end.
Proof.
  unfold get_entry, falsy. rewrite (draw_0 g).
  destruct (uuid4 g) as [fresh g1]. cbn [fst snd].
  repeat case_bool_decide;
    destruct (path_exists files (strip (path_edit (ui dlg)))), (answers_yes u),
      (_is_edit dlg), (_entry dlg);
    cbn [negb]; intros [= <- <- <-]; done.
Qed.

Lemma validation_error_refuses (dlg : EntryDialog) (u : user) files g result boxes g' :
  get_entry dlg u files g = (result, boxes, g') →
  validation_error boxes → result = None.
Proof.
  intros Hget Hval.
  destruct (get_entry_spec dlg u files g) as (r & b & g1 & Hget' & Hiff & Hnone & _).
  rewrite Hget in Hget'. injection Hget' as <- <- <-. apply Hnone. by apply Hiff.
Qed.

(** X7. [edit_selected] changes no id, adds or removes no entry, moves none
    and draws no identifier.  Either nothing changes at all, which is the
    case whenever the dialog is cancelled or the input is refused, or the
    one entry found for the current item is replaced in its place by an
    entry with the same id, the list is rebuilt and the document holds the
    new entries. *)
Theorem edit_keeps_ids self current_item (u : user) files g self' files' g' boxes :
  edit_selected home self current_item u files g = Some (self', files', g', boxes) →
  id <$> entries self' = id <$> entries self ∧
  g' = g ∧
  (entries self' = entries self ∧ files' = files ∨
   ∃ i entry entry2,
     _selected_entry self current_item = Some (i, entry) ∧
     entries self' = <[i := entry2]> (entries self) ∧
     id entry2 = id entry ∧
     list_items self' = id <$> entries self' ∧
     files' !! fp = Some (Json (document (entries self')))) ∧
  (validation_error boxes ∨ accepts u = false → entries self' = entries self ∧ files' = files).
Proof.
  unfold edit_selected.
  destruct (_selected_entry self current_item) as [[i entry]|] eqn:Hsel.
  2:{ intros [= <- <- <- <-]. split; [done|]. split; [done|]. split; [by left|done]. }
  unfold exec. destruct (accepts u) eqn:Hacc.
  2:{ intros [= <- <- <- <-]. split; [done|]. split; [done|]. split; [by left|done]. }
  destruct (get_entry _ u files g) as [[result raised] g1] eqn:Hget.
  pose proof (get_entry_id _ _ _ _ _ _ _ Hget) as Hid.
  pose proof (validation_error_refuses _ _ _ _ _ _ _ Hget) as Hval.
  destruct result as [entry2|].
  2:{ intros [= <- <- <- <-]. subst g1. split; [done|]. split; [done|]. split; [by left|done]. }
  cbn in Hid. destruct Hid as [Hid ->].
  destruct (save_entries home (<[i:=entry2]> (entries self)) files) as [files1|] eqn:Hsave;
    [|done].
  cbn [mbind option_bind]. intros [= <- <- <- <-]. cbn [entries list_items _refresh_list].
  assert (entries self !! i = Some entry) as Hlook.
  { unfold _selected_entry in Hsel. destruct current_item as [eid|]; [|done].
    by apply find_entry_Some in Hsel as [? _]. }
  split.
  { rewrite list_fmap_insert. apply list_insert_id. by rewrite list_lookup_fmap, Hlook, Hid. }
  split; [done|]. split.
  - right. exists i, entry, entry2. repeat split; try done.
    by apply save_entries_document in Hsave.
  - intros [Hv|?]; [|done]. by specialize (Hval Hv).
Qed.

(** X8. A confirmed [_delete_entry] removes every entry that has the id of
    the entry given, also when several share it, and keeps the others in
    their order; distinct ids stay distinct; the list is rebuilt and the
    document holds what is left. *)
Theorem delete_entry_removes_id self entry (u : user) files :
  answers_yes u = true →
  ∃ self' files',
    _delete_entry home self entry u files = Some (self', files') ∧
    entries self' = filter (λ e, id e ≠ id entry) (entries self) ∧
    (id entry ∉ id <$> entries self') ∧
    (entries self' `sublist_of` entries self) ∧
    (∀ e, e ∈ entries self → id e ≠ id entry → e ∈ entries self') ∧
    (NoDup (id <$> entries self) → NoDup (id <$> entries self')) ∧
    list_items self' = id <$> entries self' ∧
    files' !! fp = Some (Json (document (entries self'))).
Proof.
  intros Hyes. unfold _delete_entry. rewrite Hyes. cbn [negb].
  set (kept := filter (λ e, id e ≠ id entry) (entries self)).
  destruct (save_entries_returns home kept files) as [files' Hsave]. rewrite Hsave.
  cbn [mbind option_bind]. do 2 eexists. split; [reflexivity|].
  cbn [entries list_items _refresh_list].
  assert (kept `sublist_of` entries self) as Hsub by apply sublist_filter.
  repeat split; try done.
  - intros (e & Hid & [Hne _]%list_elem_of_filter)%list_elem_of_fmap. by destruct Hne.
  - intros e Hin Hne. by apply list_elem_of_filter.
  - intros Hnd. eapply sublist_NoDup; [exact Hnd|]. by apply fmap_sublist.
  - by apply save_entries_document in Hsave.
Qed.

Lemma get_entry_unchanged e (u : user) files g :
  (∀ w, fill u w = w) →
  strip (name e) = name e → name e ≠ "" →
  strip (description e) = description e →
  (entry_type e = "separator" ∧ path e = "" ∨
   entry_type e = "app" ∧ strip (path e) = path e ∧ path e ≠ "" ∧
     (path_exists files (path e) = true ∨ answers_yes u = true)) →
  ∃ boxes, get_entry (exec u (EntryDialog_init (Some e))).2 u files g = (Some e, boxes, g).
Proof.
  intros Hfill Hname Hne Hdesc Hkind. destruct e as [e_id e_name e_path e_desc e_type]. cbn in *.
  unfold get_entry, exec, EntryDialog_init, falsy. cbn. rewrite Hfill. cbn.
  rewrite Hname, Hdesc. rewrite (bool_decide_false (e_name = "")); [|done].
  destruct Hkind as [[-> ->]|(-> & Hpath & Hpne & Hok)].
  - cbn. by eexists.
  - cbn. rewrite Hpath. rewrite (bool_decide_false (e_path = "")); [|done].
    destruct (path_exists files e_path); cbn [negb]; [by eexists|].
    destruct Hok as [Hex | ->]; [done|]. cbn [negb]. by eexists.
Qed.

(** X9. Opening an entry in the dialog and saving it untouched gives the
    entry back as it was, provided its name, description and path carry no
    white space at the ends, the name is not empty, and it is either a
    separator without a path or an app with a path (one that exists, or the
    question is answered yes): the entries stay as they are and are saved. *)
Theorem edit_without_change self current_item (u : user) files g i e :
  _selected_entry self current_item = Some (i, e) →
  accepts u = true →
  (∀ w, fill u w = w) →
  strip (name e) = name e → name e ≠ "" →
  strip (description e) = description e →
  (entry_type e = "separator" ∧ path e = "" ∨
   entry_type e = "app" ∧ strip (path e) = path e ∧ path e ≠ "" ∧
     (path_exists files (path e) = true ∨ answers_yes u = true)) →
  ∃ files' boxes,
    edit_selected home self current_item u files g =
      Some (_refresh_list self, files', g, boxes) ∧
    save_entries home (entries self) files = Some files'.
Proof.
  intros Hsel Hacc Hfill Hname Hne Hdesc Hkind.
  destruct (get_entry_unchanged e u files g Hfill Hname Hne Hdesc Hkind) as [boxes Hget].
  destruct (save_entries_returns home (entries self) files) as [files' Hsave].
  exists files', boxes. split; [|done].
  unfold edit_selected. rewrite Hsel.
  unfold exec in *. rewrite Hacc. cbn [snd] in Hget. rewrite Hget.
  assert (<[i:=e]> (entries self) = entries self) as ->.
  { apply list_insert_id. unfold _selected_entry in Hsel.
    destruct current_item as [eid|]; [|done]. by apply find_entry_Some in Hsel as [? _]. }
  rewrite Hsave. done.
Qed.

(** ** The store: what a save writes, what a restore brings back *)

Lemma get_backup_files_ext files files' :
  (∀ k, 1 ≤ k ≤ 10 → files' !! bak k = files !! bak k) →
  get_backup_files home files' = get_backup_files home files.
Proof.
  intros Hsame. unfold get_backup_files.
  assert (∀ k, k ∈ seq 1 10 → 1 ≤ k ≤ 10) as Hin.
  { intros k Hk%elem_of_seq. lia. }
  induction (seq 1 10) as [|k l IH]; [done|].
  rewrite fmap_cons, !filter_cons.
  rewrite IH; [|intros; apply Hin; by right].
  rewrite (Hsame k); [done|]. apply Hin. by left.
Qed.

(** X10. [save_entries] writes the document and the ten backup names and no
    other file; when there is no document yet it writes the document only,
    and the backups listed stay the same. *)
Theorem save_writes_document_and_backups_only entries files files' :
  save_entries home entries files = Some files' →
  (∀ p, p ≠ fp → (∀ k, 1 ≤ k ≤ 10 → p ≠ bak k) → files' !! p = files !! p) ∧
  (files !! fp = None →
     files' = <[fp := Json (document entries)]> files ∧
     get_backup_files home files' = get_backup_files home files).
Proof.
  unfold save_entries. intros Hsave. destruct (files !! fp) as [d|] eqn:Hd.
  - destruct (backup_data_file_spec home files d Hd) as (files1 & Hb & _ & _ & _ & _ & Hframe).
    rewrite Hb in Hsave. cbn [mbind option_bind] in Hsave. injection Hsave as <-.
    split; [|done]. intros p Hp Hk. rewrite lookup_insert_ne; [|done]. by apply Hframe.
  - rewrite (backup_data_file_absent home files Hd) in Hsave.
    cbn [mbind option_bind] in Hsave. injection Hsave as <-. split.
    + intros p Hp _. by rewrite lookup_insert_ne.
    + intros _. split; [done|]. apply get_backup_files_ext. intros k _.
      rewrite lookup_insert_ne; [done|]. apply data_file_not_backup_name.
Qed.

(** X11. A save over an existing document moves every backup generation up
    by one, gaps included: generation 1 becomes the document found,
    generation [k+1] becomes what generation [k] was (absent if it was
    absent) for [k] from 1 to 8, and generation 10 becomes what generation 9
    was if there was one and is kept as it was otherwise. *)
Theorem save_shifts_generations entries files d :
  files !! fp = Some d →
  ∃ files',
    save_entries home entries files = Some files' ∧
    files' !! fp = Some (Json (document entries)) ∧
    files' !! bak 1 = Some d ∧
    (∀ k, 1 ≤ k < 9 → files' !! bak (k + 1) = files !! bak k) ∧
    files' !! bak 10 =
      match files !! bak 9 with Some c => Some c | None => files !! bak 10 end.
Proof.
  intros Hd. unfold save_entries.
  destruct (backup_data_file_spec home files d Hd) as (files1 & -> & _ & H1 & Hk & H10 & _).
  cbn [mbind option_bind]. eexists. split; [reflexivity|].
  split; [apply lookup_insert_eq|].
  split; [rewrite lookup_insert_ne; [exact H1|apply data_file_not_backup_name]|].
  split.
  - intros k Hr. rewrite lookup_insert_ne; [|apply data_file_not_backup_name]. by apply Hk.
  - rewrite lookup_insert_ne; [exact H10|apply data_file_not_backup_name].
Qed.

(** X12. Every row of the restore dialog can be restored: a path that
    [get_backup_files] lists is one of the ten backup names and exists, and
    pressing restore on its row copies it over the document, leaves every
    other file and the window as they are, and raises the success box. *)
Theorem restore_listed_row_succeeds self files row backup_path :
  get_backup_files home files !! row = Some backup_path →
  ∃ c k,
    1 ≤ k ≤ 10 ∧ backup_path = bak k ∧ files !! backup_path = Some c ∧
    show_restore_dialog home self (Some (Z.of_nat row)) files =
      (self, <[fp := c]> files, [information_restored]).
Proof.
  intros Hrow.
  assert (backup_path ∈ get_backup_files home files) as Hin
    by by eapply list_elem_of_lookup_2.
  unfold get_backup_files in Hin.
  apply list_elem_of_filter in Hin as [[c Hc] Hin].
  apply list_elem_of_fmap in Hin as (k & -> & Hk%elem_of_seq).
  exists c, k. split; [lia|]. split; [done|]. split; [done|].
  unfold show_restore_dialog. rewrite decide_False.
  2:{ intros E. by rewrite E in Hrow. }
  unfold do_restore. rewrite (proj2 (Z.leb_le 0 (Z.of_nat row))); [|lia].
  rewrite Nat2Z.id, Hrow. unfold restore_from_backup, shutil_copy2.
  rewrite decide_False; [|apply backup_name_not_data_file]. by rewrite Hc.
Qed.

Lemma load_entries_of_document files g entries :
  files !! fp = Some (Json (document entries)) →
  (load_entries home files g).1 = Loaded entries.
Proof.
  intros Hdoc.
  rewrite (load_entries_document home files g [("entries", JArr (asdict <$> entries))]
             (asdict <$> entries) Hdoc eq_refl).
  apply load_items_asdict.
Qed.

(** Starting the program on a document that holds [entries]. *)
Lemma MainWindow_init_of_document files g entries :
  files !! fp = Some (Json (document entries)) →
  (MainWindow_init home files g).1 =
    Some {| entries := entries; list_items := id <$> entries |}.
Proof.
  intros Hdoc. unfold MainWindow_init.
  pose proof (load_entries_of_document files g entries Hdoc) as Hload.
  destruct (load_entries home files g) as [r g']. cbn [fst] in Hload. by subst r.
Qed.

Lemma save_all_cons entries saves files files0 :
  save_entries home entries files = Some files0 →
  save_all home (entries :: saves) files = save_all home saves files0.
Proof. intros Hsave. unfold save_all. cbn [foldl mbind option_bind]. by rewrite Hsave. Qed.

(** X13. After a first save and N more, restoring backup generation [k]
    (1 <= k <= 10, k <= N) and starting the program anew gives the window the
    entries written [k] saves before the last one, in their order, with the
    list in step. *)
Theorem restore_generation_then_restart files entries0 saves k g :
  1 ≤ k ≤ 10 →
  k ≤ length saves →
  ∃ files' restored entries_k,
    save_all home (entries0 :: saves) files = Some files' ∧
    restore_from_backup home (bak k) files' = (true, restored) ∧
    (entries0 :: saves) !! (length saves - k) = Some entries_k ∧
    (MainWindow_init home restored g).1 =
      Some {| entries := entries_k; list_items := id <$> entries_k |}.
Proof.
  intros Hk Hle.
  destruct (save_entries_returns home entries0 files) as [files0 Hsave0].
  pose proof (save_entries_document home _ _ _ Hsave0) as Hdoc0.
  destruct (save_all_generations home saves files0 _ Hdoc0) as (files' & Hrun & _ & Hgen & _).
  destruct (lookup_lt_is_Some_2 (entries0 :: saves) (length saves - k)) as [entries_k Hek].
  { cbn. lia. }
  assert (files' !! bak k = Some (Json (document entries_k))) as Hbak.
  { rewrite (Hgen k Hk Hle).
    change (history (Json (document entries0)) saves)
      with ((λ entries, Json (document entries)) <$> (entries0 :: saves)).
    by rewrite list_lookup_fmap, Hek. }
  exists files', (<[fp := Json (document entries_k)]> files'), entries_k.
  split; [by rewrite (save_all_cons _ _ _ _ Hsave0)|]. split.
  { unfold restore_from_backup, shutil_copy2.
    rewrite decide_False; [|apply backup_name_not_data_file]. by rewrite Hbak. }
  split; [done|]. apply MainWindow_init_of_document. apply lookup_insert_eq.
Qed.

(** ** Loading: defaults and degenerate documents *)

Lemma get_str_value key default it s :
  get_str key default it = Some s →
  s = match dict_get key it with Some (JStr v) => v | _ => default end.
Proof. unfold get_str. destruct (dict_get key it) as [[]|]; by intros [= <-]. Qed.

Lemma entry_of_dict_all fresh it e :
  entry_of_dict fresh it = Some e →
  get_str "id" fresh it = Some (id e) ∧ get_str "name" "" it = Some (name e) ∧
  get_str "path" "" it = Some (path e) ∧
  get_str "description" "" it = Some (description e) ∧
  get_str "entry_type" "app" it = Some (entry_type e).
Proof.
  unfold entry_of_dict. intros He.
  destruct (get_str "id" fresh it); [|done].
  destruct (get_str "name" "" it); [|done].
  destruct (get_str "path" "" it); [|done].
  destruct (get_str "description" "" it); [|done].
  destruct (get_str "entry_type" "app" it); [|done].
  cbn in He. by injection He as <-.
Qed.

(** X14. From a document whose ["entries"] is an array, [load_entries]
    makes one entry per dict of the array, in order, and skips every other
    element.  Each field is the string the record has under its key; a
    missing name, path or description is the empty string and a missing
    entry_type is ["app"]. *)
Theorem load_fills_defaults files g data items loaded :
  files !! fp = Some (Json (JObj data)) →
  dict_get "entries" data = Some (JArr items) →
  (load_entries home files g).1 = Loaded loaded →
  length loaded = length (objects items) ∧
  ∀ j it, objects items !! j = Some it →
    ∃ e, loaded !! j = Some e ∧
      name e = match dict_get "name" it with Some (JStr v) => v | _ => "" end ∧
      path e = match dict_get "path" it with Some (JStr v) => v | _ => "" end ∧
      description e =
        match dict_get "description" it with Some (JStr v) => v | _ => "" end ∧
      entry_type e =
        match dict_get "entry_type" it with Some (JStr v) => v | _ => "app" end.
Proof.
  intros Hfile Hdata Hload.
  rewrite (load_entries_document home files g data _ Hfile Hdata) in Hload.
  destruct (load_items items [] g) as [r g'] eqn:El. cbn [fst] in Hload. subst r.
  destruct (load_items_spec _ _ _ _ _ El) as (new & -> & Hlen & Hnew).
  rewrite app_nil_l. split; [done|].
  intros j it Hj. destruct (Hnew j it Hj) as (e & Hlook & He).
  exists e. split; [done|].
  apply entry_of_dict_all in He as (_ & Hn & Hp & Hd & Ht).
  apply get_str_value in Hn, Hp, Hd, Ht. done.
Qed.

Lemma load_items_without_objects items result g :
  objects items = [] → load_items items result g = (Loaded result, g).
Proof.
  induction items as [|item items IH]; [done|].
  destruct item; cbn [objects omap list_omap load_items]; try exact IH. done.
Qed.

(** X15. Once [_data_file] has given the path, [load_entries] returns the
    empty list and draws no identifier whenever the document is missing,
    does not parse, is not an object, has no array under ["entries"], or
    that array holds no dict. *)
Theorem load_empty_without_records files g :
  ¬ (∃ data items,
       files !! fp = Some (Json (JObj data)) ∧
       dict_get "entries" data = Some (JArr items) ∧
       objects items ≠ []) →
  load_entries home files g = (Loaded [], g).
Proof.
  unfold load_entries. intros Hnone.
  destruct (files !! fp) as [[v|]|] eqn:Hfile; [|done..].
  destruct v as [| | | | |data]; try done.
  destruct (dict_get "entries" data) as [v|] eqn:Hd; [|done].
  destruct v as [| | | |items|]; try done.
  apply load_items_without_objects.
  destruct (objects items) as [|it rest] eqn:Hobj; [done|].
  destruct Hnone. exists data, items. split; [done|]. split; [done|]. by rewrite Hobj.
Qed.

(** ** Adding: by the button and by dropped files *)

Lemma open_dialog_id from_path g dlg g0 :
  open_dialog from_path g = (dlg, g0) →
  (_is_edit dlg = false ∧ g0 = g) ∨
  (∃ tmp, _is_edit dlg = true ∧ _entry dlg = Some tmp ∧ id tmp = draw g 0).
Proof.
  unfold open_dialog, from_file. rewrite (draw_0 g).
  destruct from_path as [p|]; [|intros [= <- <-]; by left].
  destruct (falsy p); [intros [= <- <-]; by left|].
  destruct (uuid4 g) as [fresh g1]. intros [= <- <-]. right. by eexists.
Qed.

(** What [add_entry_dialog] can do: nothing, or append one entry that has
    the identifier of the next draw, rebuild the list and save. *)
Lemma add_entry_dialog_effect self from_path (u : user) files g self' files' g' boxes :
  add_entry_dialog home self from_path u files g = Some (self', files', g', boxes) →
  (self' = self ∧ files' = files) ∨
  (∃ entry,
     entries self' = entries self ++ [entry] ∧
     id entry = draw g 0 ∧
     list_items self' = id <$> entries self' ∧
     save_entries home (entries self') files = Some files').
Proof.
  unfold add_entry_dialog.
  destruct (open_dialog from_path g) as [dlg g0] eqn:Hopen.
  apply open_dialog_id in Hopen. unfold exec.
  destruct (accepts u); [|intros [= <- <- <- <-]; by left].
  destruct (get_entry _ u files g0) as [[result raised] g1] eqn:Hget.
  apply get_entry_id in Hget. cbn [_is_edit _entry] in Hget.
  destruct result as [entry|]; [|intros [= <- <- <- <-]; by left].
  destruct (save_entries home (entries self ++ [entry]) files) as [files1|] eqn:Hsave;
    [|done].
  cbn [mbind option_bind]. intros [= <- <- <- <-]. right. exists entry.
  cbn [entries list_items _refresh_list]. repeat split; try done.
  destruct Hopen as [[Hedit ->]|(tmp & Hedit & Htmp & Hid)].
  - rewrite Hedit in Hget. by destruct Hget.
  - rewrite Hedit, Htmp in Hget. destruct Hget as [-> _]. done.
Qed.

(** X16. An add keeps the ids distinct as long as the identifier drawn is
    not in use: it changes nothing, or appends one entry whose id is the
    identifier of the next draw, 36 characters long. *)
Theorem add_keeps_ids_distinct self from_path (u : user) files g self' files' g' boxes :
  add_entry_dialog home self from_path u files g = Some (self', files', g', boxes) →
  NoDup (id <$> entries self) →
  draw g 0 ∉ id <$> entries self →
  NoDup (id <$> entries self') ∧
  (entries self' = entries self ∨
   ∃ entry, entries self' = entries self ++ [entry] ∧ id entry = draw g 0 ∧
     String.length (id entry) = 36).
Proof.
  intros Hrun Hnd Hfresh.
  destruct (add_entry_dialog_effect _ _ _ _ _ _ _ _ _ Hrun)
    as [[-> _]|(entry & Hadd & Hid & _)].
  - split; [done|by left].
  - split.
    + rewrite Hadd, fmap_app. apply NoDup_app. split; [done|].
      split; [|apply NoDup_singleton].
      intros eid Hin Hin'. apply list_elem_of_singleton in Hin'. subst eid.
      destruct Hfresh. by rewrite <- Hid.
    + right. exists entry. split; [done|]. split; [done|]. rewrite Hid. apply length_draw.
Qed.

(** X17. After an add that appended an entry, starting the program anew
    yields the same window: the entries in the same order and the list in
    step with them. *)
Theorem restart_after_add self from_path (u : user) files g self' files' g' boxes g0 :
  add_entry_dialog home self from_path u files g = Some (self', files', g', boxes) →
  entries self' ≠ entries self →
  (MainWindow_init home files' g0).1 = Some self'.
Proof.
  intros Hrun Hchanged.
  destruct (add_entry_dialog_effect _ _ _ _ _ _ _ _ _ Hrun)
    as [[-> _]|(entry & _ & _ & Hlist & Hsave)]; [done|].
  apply save_entries_document in Hsave.
  rewrite (MainWindow_init_of_document files' g0 _ Hsave).
  destruct self' as [es items]. cbn in *. by rewrite Hlist.
Qed.

Lemma files_dropped_from_appends n paths (respond : nat → user) self files g boxes
    self' files' g' boxes' :
  files_dropped_from home n paths respond self files g boxes = Some (self', files', g', boxes') →
  ∃ added,
    entries self' = entries self ++ added ∧
    length added ≤ length (filter (λ p, p ≠ "") paths).
Proof.
  revert n self files g boxes.
  induction paths as [|p paths IH]; intros n self files g boxes.
  { intros [= <- <- <- <-]. exists []. by rewrite app_nil_r. }
  cbn [files_dropped_from]. rewrite filter_cons. unfold falsy. case_bool_decide as Hp.
  - rewrite decide_False; [|by intros ?]. apply IH.
  - rewrite decide_True; [|done].
    destruct (add_entry_dialog home self (Some p) (respond n) files g)
      as [[[[self1 files1] g1] raised]|] eqn:Hadd; [|done].
    cbn [mbind option_bind]. intros Hrest.
    destruct (IH _ _ _ _ _ Hrest) as (added & Hadded & Hlen).
    destruct (add_entry_dialog_effect _ _ _ _ _ _ _ _ _ Hadd)
      as [[-> _]|(entry & Hone & _)].
    + exists added. split; [done|]. cbn. lia.
    + exists (entry :: added). rewrite Hadded, Hone, <- app_assoc. split; [done|]. cbn. lia.
Qed.

(** X18. Dropping files only appends: the entries held before stay first,
    in their order, and at most one entry is added per path that is not
    empty. *)
Theorem files_dropped_appends self paths (respond : nat → user) files g
    self' files' g' boxes :
  _handle_files_dropped home self paths respond files g = Some (self', files', g', boxes) →
  ∃ added,
    entries self' = entries self ++ added ∧
    length added ≤ length (filter (λ p, p ≠ "") paths).
Proof.
  intros Hrun. unfold _handle_files_dropped in Hrun.
  by apply files_dropped_from_appends in Hrun.
Qed.

(** X19. A dropped file accepted as the dialog shows it becomes an app entry
    named after the file without its directory and extension, with the
    absolute path, an empty description and the identifier of the next
    draw; name and path are trimmed.  This needs a base name and a path that
    are not blank, and a file that exists or the answer yes. *)
Theorem dropped_file_defaults self p (u : user) files g :
  p ≠ "" →
  accepts u = true →
  (∀ w, fill u w = w) →
  strip (splitext (basename p)).1 ≠ "" →
  strip (abspath p) ≠ "" →
  path_exists files (strip (abspath p)) = true ∨ answers_yes u = true →
  ∃ files' boxes,
    add_entry_dialog home self (Some p) u files g =
      Some (_refresh_list
              {| entries := entries self ++
                   [{| id := draw g 0; name := strip (splitext (basename p)).1;
                       path := strip (abspath p); description := "";
                       entry_type := "app" |}];
                 list_items := list_items self |},
            files', (uuid4 g).2, boxes).
Proof.
  intros Hp Hacc Hfill Hname Hpath Hok.
  unfold add_entry_dialog, open_dialog, from_file, falsy.
  rewrite (bool_decide_false (p = "")); [|done]. rewrite (draw_0 g).
  destruct (uuid4 g) as [fresh g1]. cbn [fst snd].
  unfold exec, EntryDialog_init. rewrite Hacc, Hfill.
  unfold get_entry, falsy. cbn.
  change (strip "") with "".
  rewrite (decide_False (P := "app" = "separator")); [|done].
  rewrite (bool_decide_false (0 = 1)); [|done].
  rewrite (bool_decide_false (strip (splitext (basename p)).1 = "")); [|done].
  rewrite (bool_decide_false (strip (abspath p) = "")); [|done].
  set (entry := {| id := fresh; name := strip (splitext (basename p)).1;
                   path := strip (abspath p); description := ""; entry_type := "app" |}).
  destruct (save_entries_returns home (entries self ++ [entry]) files) as [files' Hsave].
  destruct (path_exists files (strip (abspath p))); cbn [negb].
  - rewrite Hsave. cbn [mbind option_bind]. by do 2 eexists.
  - destruct Hok as [Hex | ->]; [done|]. cbn [negb].
    rewrite Hsave. cbn [mbind option_bind]. by do 2 eexists.
Qed.
End More.

(* ===================================================================== *)
(** * The statements at concrete inputs *)
(* ===================================================================== *)

Ltac compute_eq := vm_compute; reflexivity.

(** C1, as stated, fails: the report holds an id that no entry has, so its
    id set is not the registry's; yet the order is changed and saved over
    the document. *)
Lemma reorder_with_unknown_id_is_applied :
  let self := {| entries := [notes; calc]; list_items := ["id-calc"; "id-notes"; "id-ghost"] |} in
  (list_to_set (read_ordered_ids self) : gset string) ≠ list_to_set (id <$> entries self) ∧
  example_files !! _data_file example_home = Some (Json (document [notes; calc])) ∧
  ∃ files',
    _save_current_order example_home self example_files =
      Some (order_saved, {| entries := [calc; notes]; list_items := list_items self |}, files') ∧
    files' !! _data_file example_home = Some (Json (document [calc; notes])).
Proof.
  split; [|split; [compute_eq|]].
  - intros E. apply (f_equal (λ s : gset string, bool_decide ("id-ghost" ∈ s))) in E.
    vm_compute in E. discriminate E.
  - exists (default ∅ (save_entries example_home [calc; notes] example_files)).
    split; compute_eq.
Qed.

(** C2, as stated, fails: the document exists and has three backup
    generations; after one save there are four, not min(1,10). *)
Lemma one_save_over_three_generations :
  files_with_three_backups !! _data_file example_home = Some (Json (document [notes; calc])) ∧
  (get_backup_files example_home <$>
     save_all example_home [[calc]] files_with_three_backups) =
    Some (backup_name example_home <$> [1; 2; 3; 4]) ∧
  length (backup_name example_home <$> [1; 2; 3; 4]) ≠ length [[calc]] `min` 10.
Proof. split; [compute_eq|]. split; [compute_eq|]. cbn. lia. Qed.

Lemma backup_generations_witness :
  (∃ files', save_all example_home twelve_saves example_files = Some files' ∧
     length (get_backup_files example_home files') = 10 ∧
     files' !! backup_name example_home 10 = Some (Json (document [notes; notes]))) ∧
  (∃ files', save_all example_home [[notes]; [notes; calc]; [calc]] example_files = Some files' ∧
     length (get_backup_files example_home files') = 3).
Proof.
  split.
  - destruct (backup_generations_after_saves example_home twelve_saves example_files
                (Json (document [notes; calc])))
      as (files' & before & Hrun & _ & _ & _ & Hcount & H12); [compute_eq|vm_compute; lia|].
    exists files'. split; [exact Hrun|]. split.
    + apply Hcount. right. vm_compute. lia.
    + destruct (H12 eq_refl) as (second & entries2 & _ & He2 & Hdoc & ->).
      rewrite Hdoc. vm_compute in He2. by injection He2 as <-.
  - destruct (backup_generations_after_saves example_home [[notes]; [notes; calc]; [calc]]
                example_files (Json (document [notes; calc])))
      as (files' & before & Hrun & _ & _ & _ & Hcount & _); [compute_eq|cbn; lia|].
    exists files'. split; [exact Hrun|].
    apply Hcount. left. intros k Hk.
    do 11 (destruct k as [|k]; [try lia; try compute_eq|]). lia.
Defined.

Example three_saves_three_generations :
  (get_backup_files example_home <$>
     save_all example_home [[notes]; [notes; calc]; [calc]] example_files) =
  Some (backup_name example_home <$> [1; 2; 3]).
Proof. compute_eq. Qed.

(** C3, as stated, fails: both records are loaded, the one without a name
    with the empty name; the load does not yield exactly one entry. *)
Lemma record_without_name_is_loaded :
  (load_entries example_home files_record_without_name no_entropy).1 =
    Loaded [calc;
            {| id := "id-anon"; name := ""; path := "/opt/anon.exe"; description := "";
               entry_type := "app" |}] ∧
  ¬ ∃ e, (load_entries example_home files_record_without_name no_entropy).1 = Loaded [e].
Proof.
  split; [compute_eq|]. intros [e E]. vm_compute in E. discriminate E.
Qed.

Lemma load_keeps_record_without_name_witness :
  (load_entries example_home files_record_without_name no_entropy).1 =
    Loaded [calc;
            {| id := "id-anon"; name := ""; path := "/opt/anon.exe"; description := "";
               entry_type := "app" |}].
Proof.
  apply (load_keeps_record_without_name example_home files_record_without_name no_entropy
           [("entries", JArr [JObj record_calc; JObj record_without_name])]
           record_calc record_without_name); compute_eq.
Defined.

(** C10, as stated, fails: the record whose id is the empty string is
    loaded with the empty id. *)
Lemma record_with_empty_id_is_loaded :
  ∃ e rest,
    (load_entries example_home files_record_empty_id no_entropy).1 = Loaded (e :: rest) ∧
    id e = "".
Proof. do 2 eexists. split; compute_eq. Qed.

Lemma load_assigns_missing_ids_witness :
  ∃ loaded e,
    (load_entries example_home files_record_empty_id no_entropy).1 = Loaded loaded ∧
    loaded !! 1 = Some e ∧
    id e = "00000000-0000-4000-8000-000000000000" ∧ String.length (id e) = 36.
Proof.
  destruct (load_entries example_home files_record_empty_id no_entropy).1
    as [loaded|] eqn:Eload; [|by vm_compute in Eload].
  destruct (load_assigns_missing_ids example_home files_record_empty_id no_entropy
              [("entries", JArr [JObj record_empty_id; JObj record_without_id])]
              [JObj record_empty_id; JObj record_without_id] loaded)
    as [_ Hrec]; [compute_eq..|exact Eload|].
  destruct (Hrec 1 record_without_id eq_refl) as (e & Hlook & Habs & _).
  destruct (Habs eq_refl) as (Hid & Hlen & _).
  exists loaded, e. split; [done|]. split; [done|]. split; [|done].
  rewrite Hid. compute_eq.
Defined.

Lemma restore_changes_document_only_witness :
  let self := {| entries := [notes; calc]; list_items := ["id-notes"; "id-calc"] |} in
  ∃ files',
    do_restore example_home self (get_backup_files example_home files_with_backup) 0
      files_with_backup = (self, files', [information_restored]) ∧
    files' !! _data_file example_home = Some (Json (document [notes])) ∧
    files' !! backup_name example_home 1 = Some (Json (document [notes])).
Proof.
  intros self.
  set (files' := (restore_from_backup example_home (backup_name example_home 1)
                    files_with_backup).2).
  assert (do_restore example_home self (get_backup_files example_home files_with_backup) 0
            files_with_backup = (self, files', [information_restored])) as Hrun by compute_eq.
  destruct (restore_changes_document_only example_home self
              (get_backup_files example_home files_with_backup) 0 files_with_backup
              self files' Hrun)
    as (backup_path & Hrow & _ & _ & Hdoc & _ & Hbak & _).
  exists files'. split; [exact Hrun|]. split.
  - rewrite Hdoc. vm_compute in Hrow. injection Hrow as <-. compute_eq.
  - rewrite Hbak. compute_eq.
Defined.

Lemma reorder_permutation_applied_witness :
  let self := {| entries := [notes; calc]; list_items := ["id-calc"; "id-notes"] |} in
  ∃ new_entries files',
    _save_current_order example_home self example_files =
      Some (order_saved, {| entries := new_entries; list_items := list_items self |}, files') ∧
    id <$> new_entries = ["id-calc"; "id-notes"] ∧
    files' !! _data_file example_home = Some (Json (document new_entries)).
Proof.
  intros self.
  destruct (reorder_permutation_applied example_home self example_files)
    as (new_entries & files' & Hrun & Hids & _ & _ & _ & Hdoc).
  - vm_compute. apply perm_swap.
  - compute_done.
  - exists new_entries, files'. split; [exact Hrun|]. split; [exact Hids|exact Hdoc].
Defined.

Example reorder_notes_calc :
  let self := {| entries := [notes; calc]; list_items := ["id-calc"; "id-notes"] |} in
  (λ r, entries r.1.2) <$> _save_current_order example_home self example_files =
  Some [calc; notes].
Proof. compute_eq. Qed.

Lemma reorder_twice_witness :
  let self := {| entries := [notes; calc]; list_items := ["id-calc"; "id-notes"] |} in
  ∃ self1 files1 self2 files2,
    _save_current_order example_home self example_files = Some (order_saved, self1, files1) ∧
    _save_current_order example_home self1 files1 = Some (order_saved, self2, files2) ∧
    entries self2 = entries self1.
Proof.
  intros self. apply (reorder_twice example_home self example_files).
  - vm_compute. apply perm_swap.
  - compute_done.
Defined.

Example strip_removes_white_space :
  strip "  Notes " = "Notes" ∧
  strip (utf8 12288) = "" ∧
  strip (utf8 160 +:+ "Memo" +:+ utf8 12288 +:+ utf8 133) = "Memo" ∧
  strip ("a" +:+ utf8 12288 +:+ "b") = "a" +:+ utf8 12288 +:+ "b".
Proof. repeat split; compute_eq. Qed.

(** A name that is one ideographic space is refused as empty. *)
Example blank_unicode_name_is_refused :
  get_entry
    {| _is_edit := false; _entry := None;
       ui := {| type_combo := 0; name_edit := utf8 12288; path_edit := "/opt/notes/notes.exe";
                desc_edit := "" |} |}
    eager_user example_files no_entropy =
  (None, [warning_name_required], no_entropy).
Proof. compute_eq. Qed.

Lemma add_entry_validation_witness :
  let self := {| entries := [notes]; list_items := ["id-notes"] |} in
  ∃ self' files' g' boxes,
    add_entry_dialog example_home self None eager_user example_files no_entropy =
      Some (self', files', g', boxes) ∧
    boxes = [question_path_not_found] ∧
    ∃ entry, entries self' = [notes; entry] ∧ name entry = "Notes" ∧
      path entry = "/opt/gone.exe".
Proof.
  intros self.
  destruct (add_entry_validation example_home self None eager_user example_files no_entropy
              eq_refl)
    as (self' & files' & g' & boxes & Hrun & Hval & _ & Hq & Hok).
  assert (¬ (strip "  Notes " = "" ∨ 0 ≠ 1 ∧ strip " /opt/gone.exe" = "")) as Hvalid.
  { vm_compute. by intros [?|[_ ?]]. }
  exists self', files', g', boxes. split; [exact Hrun|]. split.
  - by apply (Hq Hvalid).
  - destruct (Hok Hvalid) as (entry & Hentries & Hname & Hpath & _); [by right; right|].
    exists entry. split; [exact Hentries|]. split; [exact Hname|]. by apply Hpath.
Defined.

Lemma script_without_directory_witness :
  _run_entry true {[ "tool.py" := Raw "print(1)" ]} tool =
    Popen_shell ("start " +:+ dq +:+ "Python: Tool" +:+ dq +:+ " cmd /k " +:+ dq
                 +:+ "cd /d " +:+ dq +:+ "None" +:+ dq
                 +:+ " && python " +:+ dq +:+ "tool.py" +:+ dq +:+ " && pause" +:+ dq).
Proof.
  apply (script_without_directory true {[ "tool.py" := Raw "print(1)" ]} tool).
  - by vm_compute.
  - compute_eq.
  - vm_compute. by left.
  - compute_eq.
Defined.

(** Off Windows a file of another kind is not opened with the program the
    system has for it: the file itself is executed. *)
Example other_extension_off_windows :
  _run_entry false {[ "/home/u/readme.txt" := Raw "read me" ]} readme =
    Popen_args ["/home/u/readme.txt"] (Some "/home/u") ∧
  _run_entry true {[ "/home/u/readme.txt" := Raw "read me" ]} readme =
    startfile "/home/u/readme.txt".
Proof. split; compute_eq. Qed.

Example run_entry_cases :
  _run_entry true ∅ {| id := "c"; name := "Tools"; path := ""; description := "";
                       entry_type := "separator" |} = no_launch ∧
  _run_entry true ∅ notes = shown warning_file_not_found ∧
  _run_entry true {[ "/opt/notes/notes.exe" := Raw "MZ" ]} notes =
    Popen_shell ("start " +:+ dq +:+ "Notes" +:+ dq +:+ " cmd /k " +:+ dq
                 +:+ "cd /d " +:+ dq +:+ "/opt/notes" +:+ dq
                 +:+ " && " +:+ dq +:+ "/opt/notes/notes.exe" +:+ dq +:+ " && pause" +:+ dq) ∧
  _run_entry true {[ "/opt/Job.PY" := Raw "pass" ]}
    {| id := "j"; name := "Job"; path := "/opt/Job.PY"; description := "";
       entry_type := "app" |} =
    Popen_shell ("start " +:+ dq +:+ "Python: Job" +:+ dq +:+ " cmd /k " +:+ dq
                 +:+ "cd /d " +:+ dq +:+ "/opt" +:+ dq
                 +:+ " && python " +:+ dq +:+ "/opt/Job.PY" +:+ dq +:+ " && pause" +:+ dq).
Proof. repeat split; compute_eq. Qed.

(* ===================================================================== *)
(** * More statements at concrete inputs *)
(* ===================================================================== *)

Lemma reorder_keeps_entries_witness :
  let self := {| entries := [notes; calc]; list_items := ["id-calc"; "id-notes"; "id-ghost"] |} in
  ∃ files',
    _save_current_order example_home self example_files =
      Some (order_saved, {| entries := [calc; notes]; list_items := list_items self |}, files') ∧
    [calc; notes] ≡ₚ [notes; calc].
Proof.
  intros self.
  set (files' := default ∅ (save_entries example_home [calc; notes] example_files)).
  assert (_save_current_order example_home self example_files =
            Some (order_saved, {| entries := [calc; notes]; list_items := list_items self |},
                  files')) as Hrun by compute_eq.
  exists files'. split; [exact Hrun|].
  exact (proj1 (reorder_keeps_entries example_home self example_files _ _ _ Hrun)).
Defined.

Lemma reorder_empty_id_rejected_witness :
  let self := {| entries := [notes; blank_id_entry]; list_items := ["id-notes"; ""] |} in
  _save_current_order example_home self example_files =
    Some (missing_refreshed, _refresh_list self, example_files).
Proof.
  intros self. apply (reorder_empty_id_rejected example_home self example_files).
  compute_done.
Defined.

Lemma reorder_duplicate_ids_never_saved_witness :
  let self := {| entries := [notes; notes_twin]; list_items := ["id-notes"] |} in
  ∃ exit self' files',
    _save_current_order example_home self example_files = Some (exit, self', files') ∧
    exit = count_differs ∧ entries self' = entries self ∧ files' = example_files.
Proof.
  intros self.
  assert (_save_current_order example_home self example_files =
            Some (count_differs, self, example_files)) as Hrun by compute_eq.
  exists count_differs, self, example_files. split; [exact Hrun|]. split; [reflexivity|].
  destruct (reorder_duplicate_ids_never_saved example_home self example_files
              count_differs self example_files) as (_ & Hsame & Hfiles);
    [compute_done|exact Hrun|].
  split; [exact Hsame|exact Hfiles].
Defined.

Lemma reorder_unmoved_still_saves_witness :
  ∃ files',
    _save_current_order example_home (_refresh_list notes_and_calc) example_files =
      Some (order_saved, _refresh_list notes_and_calc, files') ∧
    files' !! _data_file example_home = Some (Json (document [notes; calc])) ∧
    files' !! backup_name example_home 1 = Some (Json (document [notes; calc])).
Proof.
  apply (reorder_unmoved_still_saves example_home notes_and_calc example_files
           (Json (document [notes; calc]))).
  - compute_done.
  - compute_done.
  - compute_eq.
Defined.

Example find_first_dict_last :
  snd <$> _find_entry_by_id [notes; notes_twin] "id-notes" = Some notes ∧
  id_to_entry [notes; notes_twin] !! "id-notes" = Some notes_twin.
Proof. split; compute_eq. Qed.

Lemma find_entry_agrees_with_dict_witness :
  snd <$> _find_entry_by_id [notes; calc] "id-calc" = id_to_entry [notes; calc] !! "id-calc".
Proof.
  apply (proj2 (proj2 (find_entry_agrees_with_dict [notes; calc] "id-calc"))).
  compute_done.
Defined.

Lemma edit_keeps_ids_witness :
  let calculator := {| id := "id-calc"; name := "Calculator"; path := "/opt/calc/calc.exe";
                       description := ""; entry_type := "app" |} in
  ∃ files',
    edit_selected example_home notes_and_calc (Some "id-calc") renaming_user example_files
      no_entropy =
      Some ({| entries := [notes; calculator]; list_items := ["id-notes"; "id-calc"] |},
            files', no_entropy, [question_path_not_found]) ∧
    id <$> [notes; calculator] = id <$> [notes; calc].
Proof.
  intros calculator.
  set (files' := default ∅ (save_entries example_home [notes; calculator] example_files)).
  assert (edit_selected example_home notes_and_calc (Some "id-calc") renaming_user
            example_files no_entropy =
          Some ({| entries := [notes; calculator]; list_items := ["id-notes"; "id-calc"] |},
                files', no_entropy, [question_path_not_found])) as Hrun by compute_eq.
  exists files'. split; [exact Hrun|].
  exact (proj1 (edit_keeps_ids example_home _ _ _ _ _ _ _ _ _ Hrun)).
Defined.

Example edit_renames_calc :
  (λ r, entries r.1.1.1) <$>
    edit_selected example_home notes_and_calc (Some "id-calc") renaming_user example_files
      no_entropy =
  Some [notes; {| id := "id-calc"; name := "Calculator"; path := "/opt/calc/calc.exe";
                  description := ""; entry_type := "app" |}].
Proof. compute_eq. Qed.

Lemma delete_entry_removes_id_witness :
  ∃ self' files',
    _delete_entry example_home {| entries := [notes; calc; notes_twin]; list_items := [] |}
      notes eager_user example_files = Some (self', files') ∧
    entries self' = [calc].
Proof.
  destruct (delete_entry_removes_id example_home
              {| entries := [notes; calc; notes_twin]; list_items := [] |}
              notes eager_user example_files eq_refl)
    as (self' & files' & Hrun & Hkept & _).
  exists self', files'. split; [exact Hrun|]. rewrite Hkept. compute_eq.
Defined.

Lemma edit_without_change_witness :
  ∃ files' boxes,
    edit_selected example_home notes_and_calc (Some "id-notes") patient_user example_files
      no_entropy = Some (_refresh_list notes_and_calc, files', no_entropy, boxes).
Proof.
  destruct (edit_without_change example_home notes_and_calc (Some "id-notes") patient_user
              example_files no_entropy 0 notes) as (files' & boxes & Hrun & _).
  - compute_eq.
  - reflexivity.
  - intros w. reflexivity.
  - compute_eq.
  - vm_compute. discriminate.
  - compute_eq.
  - right. split; [reflexivity|]. split; [compute_eq|]. split; [vm_compute; discriminate|].
    right. reflexivity.
  - exists files', boxes. exact Hrun.
Defined.

Lemma save_writes_document_and_backups_only_witness :
  let files : fs := {[ "/home/u/notes.txt" := Raw "keep" ]} in
  let files' := <[_data_file example_home := Json (document [notes])]> files in
  save_entries example_home [notes] files = Some files' ∧
  files' !! "/home/u/notes.txt" = Some (Raw "keep") ∧
  get_backup_files example_home files' = [].
Proof.
  intros files files'.
  assert (save_entries example_home [notes] files = Some files') as Hsave by compute_eq.
  destruct (save_writes_document_and_backups_only example_home [notes] files files' Hsave)
    as [Hframe Hfirst].
  split; [exact Hsave|]. split.
  - rewrite Hframe; [compute_eq|vm_compute; discriminate|].
    intros k _. vm_compute. intros E. discriminate E.
  - destruct Hfirst as [_ ->]; compute_eq.
Defined.

Lemma save_shifts_generations_witness :
  ∃ files',
    save_entries example_home [calc] files_with_backup = Some files' ∧
    files' !! backup_name example_home 1 = Some (Json (document [notes; calc])) ∧
    files' !! backup_name example_home 2 = Some (Json (document [notes])) ∧
    files' !! backup_name example_home 3 = None.
Proof.
  destruct (save_shifts_generations example_home [calc] files_with_backup
              (Json (document [notes; calc]))) as (files' & Hsave & _ & H1 & Hk & _).
  - compute_eq.
  - exists files'. split; [exact Hsave|]. split; [exact H1|]. split.
    + pose proof (Hk 1 ltac:(lia)) as H2. change (1 + 1) with 2 in H2.
      rewrite H2. compute_eq.
    + pose proof (Hk 2 ltac:(lia)) as H3. change (2 + 1) with 3 in H3.
      rewrite H3. compute_eq.
Defined.

Lemma restore_listed_row_succeeds_witness :
  show_restore_dialog example_home notes_and_calc (Some 0%Z) files_with_backup =
    (notes_and_calc,
     <[_data_file example_home := Json (document [notes])]> files_with_backup,
     [information_restored]).
Proof.
  destruct (restore_listed_row_succeeds example_home notes_and_calc files_with_backup 0
              (backup_name example_home 1)) as (c & k & _ & _ & Hc & Hrun).
  - compute_eq.
  - assert (c = Json (document [notes])) as ->.
    { vm_compute in Hc. by injection Hc as <-. }
    exact Hrun.
Defined.

Lemma restore_generation_then_restart_witness :
  ∃ files' restored,
    save_all example_home [[notes]; [notes; calc]; [calc]] ∅ = Some files' ∧
    restore_from_backup example_home (backup_name example_home 1) files' = (true, restored) ∧
    (MainWindow_init example_home restored no_entropy).1 = Some notes_and_calc.
Proof.
  destruct (restore_generation_then_restart example_home ∅ [notes] [[notes; calc]; [calc]] 1
              no_entropy) as (files' & restored & entries_k & Hrun & Hres & Hk & Hinit).
  - lia.
  - cbn. lia.
  - exists files', restored. split; [exact Hrun|]. split; [exact Hres|].
    cbn in Hk. injection Hk as <-. exact Hinit.
Defined.

Lemma load_fills_defaults_witness :
  ∃ loaded e,
    (load_entries example_home files_record_without_name no_entropy).1 = Loaded loaded ∧
    loaded !! 1 = Some e ∧
    name e = "" ∧ path e = "/opt/anon.exe" ∧ description e = "" ∧ entry_type e = "app".
Proof.
  set (loaded := [calc; {| id := "id-anon"; name := ""; path := "/opt/anon.exe";
                           description := ""; entry_type := "app" |}]).
  assert ((load_entries example_home files_record_without_name no_entropy).1 = Loaded loaded)
    as Hload by compute_eq.
  destruct (load_fills_defaults example_home files_record_without_name no_entropy
              [("entries", JArr [JObj record_calc; JObj record_without_name])]
              [JObj record_calc; JObj record_without_name] loaded)
    as [_ Hrec]; [compute_eq..|exact Hload|].
  destruct (Hrec 1 record_without_name eq_refl) as (e & Hlook & Hn & Hp & Hd & Ht).
  exists loaded, e. split; [exact Hload|]. split; [exact Hlook|].
  split; [exact Hn|]. split; [exact Hp|]. split; [exact Hd|exact Ht].
Defined.

Lemma load_empty_without_records_witness :
  let files : fs :=
    {[ _data_file example_home := Json (JObj [("entries", JArr [JStr "x"; JNum 3; JNull])]) ]} in
  load_entries example_home files no_entropy = (Loaded [], no_entropy) ∧
  load_entries example_home ∅ no_entropy = (Loaded [], no_entropy) ∧
  load_entries example_home {[ _data_file example_home := Raw "{" ]} no_entropy =
    (Loaded [], no_entropy).
Proof.
  intros files. split; [|split].
  - apply (load_empty_without_records example_home files no_entropy).
    intros (data & items & Hfile & Hdata & Hobj).
    vm_compute in Hfile. injection Hfile as <-.
    vm_compute in Hdata. injection Hdata as <-. by apply Hobj.
  - apply (load_empty_without_records example_home ∅ no_entropy).
    intros (data & items & Hfile & _). vm_compute in Hfile. discriminate Hfile.
  - apply (load_empty_without_records example_home).
    intros (data & items & Hfile & _). vm_compute in Hfile. discriminate Hfile.
Defined.

Lemma add_keeps_ids_distinct_witness :
  ∃ files',
    add_entry_dialog example_home {| entries := [notes]; list_items := ["id-notes"] |} None
      eager_user example_files no_entropy =
      Some (notes_and_gone, files', (uuid4 no_entropy).2, [question_path_not_found]) ∧
    NoDup (id <$> entries notes_and_gone).
Proof.
  set (files' := default ∅ (save_entries example_home [notes; gone] example_files)).
  assert (add_entry_dialog example_home {| entries := [notes]; list_items := ["id-notes"] |}
            None eager_user example_files no_entropy =
          Some (notes_and_gone, files', (uuid4 no_entropy).2, [question_path_not_found]))
    as Hrun by compute_eq.
  exists files'. split; [exact Hrun|].
  apply (add_keeps_ids_distinct example_home _ _ _ _ _ _ _ _ _ Hrun); compute_done.
Defined.

Lemma restart_after_add_witness :
  ∃ files',
    add_entry_dialog example_home {| entries := [notes]; list_items := ["id-notes"] |} None
      eager_user example_files no_entropy =
      Some (notes_and_gone, files', (uuid4 no_entropy).2, [question_path_not_found]) ∧
    (MainWindow_init example_home files' no_entropy).1 = Some notes_and_gone.
Proof.
  set (files' := default ∅ (save_entries example_home [notes; gone] example_files)).
  assert (add_entry_dialog example_home {| entries := [notes]; list_items := ["id-notes"] |}
            None eager_user example_files no_entropy =
          Some (notes_and_gone, files', (uuid4 no_entropy).2, [question_path_not_found]))
    as Hrun by compute_eq.
  exists files'. split; [exact Hrun|].
  apply (restart_after_add example_home _ _ _ _ _ _ _ _ _ no_entropy Hrun).
  discriminate.
Defined.

Lemma files_dropped_appends_witness :
  ∃ files' added,
    _handle_files_dropped example_home notes_and_calc [""; "/home/u/tool.py"]
      (λ _, patient_user) example_files no_entropy =
      Some ({| entries := [notes; calc; dropped_tool];
               list_items := id <$> [notes; calc; dropped_tool] |},
            files', (uuid4 no_entropy).2, [question_path_not_found]) ∧
    [notes; calc; dropped_tool] = [notes; calc] ++ added ∧ length added ≤ 1.
Proof.
  set (files' := default ∅ (save_entries example_home [notes; calc; dropped_tool]
                              example_files)).
  assert (_handle_files_dropped example_home notes_and_calc [""; "/home/u/tool.py"]
            (λ _, patient_user) example_files no_entropy =
          Some ({| entries := [notes; calc; dropped_tool];
                   list_items := id <$> [notes; calc; dropped_tool] |},
                files', (uuid4 no_entropy).2, [question_path_not_found]))
    as Hrun by compute_eq.
  destruct (files_dropped_appends example_home _ _ _ _ _ _ _ _ _ Hrun)
    as (added & Hadded & Hlen).
  exists files', added. split; [exact Hrun|]. split; [exact Hadded|exact Hlen].
Defined.

Lemma dropped_file_defaults_witness :
  ∃ files' boxes,
    add_entry_dialog example_home notes_and_calc (Some "/home/u/tool.py") patient_user
      example_files no_entropy =
      Some ({| entries := [notes; calc; dropped_tool];
               list_items := id <$> [notes; calc; dropped_tool] |},
            files', (uuid4 no_entropy).2, boxes).
Proof.
  destruct (dropped_file_defaults example_home notes_and_calc "/home/u/tool.py" patient_user
              example_files no_entropy) as (files' & boxes & Hrun).
  - discriminate.
  - reflexivity.
  - intros w. reflexivity.
  - vm_compute. discriminate.
  - vm_compute. discriminate.
  - right. reflexivity.
  - exists files', boxes. exact Hrun.
Defined.
